(** * Biometric pipeline with a local hash-linked ledger

    Shallow embedding of [TP1_desarrollo/main.py] (sample generator,
    sliding-window analyzers, ledger builder) and of
    [TP1_desarrollo/verificar_cadena.py] (offline ledger verifier),
    together with the properties of the specification that concern them. *)

From Stdlib Require Import ZArith List String Ascii Bool Lia.
From Stdlib Require Import Numbers.DecimalString.
From Stdlib Require Import Sorting.Sorted Sorting.Permutation.
From Stdlib Require Import Numbers.Cyclic.Int63.Uint63 Floats.PrimFloat.
Import ListNotations.

Set Warnings "-register-all".

Local Open Scope string_scope.
Local Open Scope list_scope.
Local Open Scope Z_scope.

(* ================================================================== *)
(** ** [hashlib.sha256(...).hexdigest()]

    The digest of FIPS 180-4 on the bytes of the string, words being
    32-bit integers kept in [Z] with the reduction written out. *)

Module Sha256.

Definition w32 (x : Z) : Z := x mod 4294967296.

Definition add32 (x y : Z) : Z := w32 (x + y).

Definition rotr (n x : Z) : Z :=
  w32 (Z.lor (Z.shiftr x n) (Z.shiftl x (32 - n))).

Definition not32 (x : Z) : Z := 4294967295 - x.

Definition Ch (x y z : Z) : Z :=
  Z.lxor (Z.land x y) (Z.land (not32 x) z).

Definition Maj (x y z : Z) : Z :=
  Z.lxor (Z.lxor (Z.land x y) (Z.land x z)) (Z.land y z).

Definition Sigma0 (x : Z) : Z :=
  Z.lxor (Z.lxor (rotr 2 x) (rotr 13 x)) (rotr 22 x).

Definition Sigma1 (x : Z) : Z :=
  Z.lxor (Z.lxor (rotr 6 x) (rotr 11 x)) (rotr 25 x).

Definition sigma0 (x : Z) : Z :=
  Z.lxor (Z.lxor (rotr 7 x) (rotr 18 x)) (Z.shiftr x 3).

Definition sigma1 (x : Z) : Z :=
  Z.lxor (Z.lxor (rotr 17 x) (rotr 19 x)) (Z.shiftr x 10).

(** The round constants are the first 32 bits of the fractional parts
    of the cube roots of the first 64 primes, the initial hash value
    those of the square roots of the first 8 primes. *)

Fixpoint is_prime_by (ds : list Z) (n : Z) : bool :=
  match ds with
  | [] => true
  | d :: ds' => negb (n mod d =? 0) && is_prime_by ds' n
  end.

(** The primes among [n], [n + 1], ..., given those below [n]. *)
Fixpoint primes_from (fuel : nat) (n : Z) (found : list Z) : list Z :=
  match fuel with
  | O => found
  | S fuel' =>
      primes_from fuel' (n + 1)
                  (if is_prime_by found n then found ++ [n] else found)
  end.

Definition primes : list Z := primes_from 310 2 [].

(** Integer cube root, one bit at a time from bit [bits] down. *)
Fixpoint cbrt_bits (bits : nat) (n r : Z) : Z :=
  match bits with
  | O => r
  | S b =>
      let r' := r + Z.shiftl 1 (Z.of_nat b) in
      cbrt_bits b n (if r' * r' * r' <=? n then r' else r)
  end.

Definition frac_cbrt (p : Z) : Z := w32 (cbrt_bits 40 (p * 2 ^ 96) 0).

Definition frac_sqrt (p : Z) : Z := w32 (Z.sqrt (p * 2 ^ 64)).

Definition K : list Z := Eval vm_compute in map frac_cbrt (firstn 64 primes).

Definition H0 : list Z := Eval vm_compute in map frac_sqrt (firstn 8 primes).

(** Message bytes, padding and the split into big-endian words. *)

Definition bytes_of_string (s : string) : list Z :=
  map (fun c => Z.of_N (N_of_ascii c)) (list_ascii_of_string s).

Definition be_bytes (n : nat) (x : Z) : list Z :=
  map (fun i => Z.shiftr x (8 * Z.of_nat i) mod 256) (rev (seq 0 n)).

Definition pad (msg : list Z) : list Z :=
  let len := Z.of_nat (List.length msg) in
  let zeros := Z.to_nat ((55 - len) mod 64) in
  msg ++ [128] ++ repeat 0 zeros ++ be_bytes 8 (8 * len).

Fixpoint words_of_bytes (bs : list Z) : list Z :=
  match bs with
  | a :: b :: c :: d :: rest =>
      (((a * 256 + b) * 256 + c) * 256 + d) :: words_of_bytes rest
  | _ => []
  end.

Fixpoint chunks (fuel : nat) (ws : list Z) : list (list Z) :=
  match fuel, ws with
  | S fuel', _ :: _ => firstn 16 ws :: chunks fuel' (skipn 16 ws)
  | _, _ => []
  end.

(** Message schedule: [w] holds the schedule so far, newest word first. *)

Fixpoint extend (n : nat) (w : list Z) : list Z :=
  match n with
  | O => w
  | S n' =>
      let x := add32 (add32 (sigma1 (nth 1 w 0)) (nth 6 w 0))
                     (add32 (sigma0 (nth 14 w 0)) (nth 15 w 0)) in
      extend n' (x :: w)
  end.

Definition schedule (block : list Z) : list Z :=
  rev (extend 48 (rev block)).

Record regs : Type := mkRegs
  { ra : Z; rb : Z; rc : Z; rd : Z; re : Z; rf : Z; rg : Z; rh : Z }.

Definition round (r : regs) (kw : Z * Z) : regs :=
  let t1 := add32 (add32 (add32 (rh r) (Sigma1 (re r)))
                         (add32 (Ch (re r) (rf r) (rg r)) (fst kw)))
                  (snd kw) in
  let t2 := add32 (Sigma0 (ra r)) (Maj (ra r) (rb r) (rc r)) in
  mkRegs (add32 t1 t2) (ra r) (rb r) (rc r) (add32 (rd r) t1) (re r) (rf r) (rg r).

Definition regs_of_list (h : list Z) : regs :=
  mkRegs (nth 0 h 0) (nth 1 h 0) (nth 2 h 0) (nth 3 h 0)
         (nth 4 h 0) (nth 5 h 0) (nth 6 h 0) (nth 7 h 0).

Definition list_of_regs (r : regs) : list Z :=
  [ra r; rb r; rc r; rd r; re r; rf r; rg r; rh r].

Definition compress (h : list Z) (block : list Z) : list Z :=
  let r := fold_left round (combine K (schedule block)) (regs_of_list h) in
  map (fun p => add32 (fst p) (snd p)) (combine h (list_of_regs r)).

Definition digest (msg : list Z) : list Z :=
  let ws := words_of_bytes (pad msg) in
  List.concat (map (be_bytes 4) (fold_left compress (chunks (List.length ws) ws) H0)).

Definition hex_digit (d : Z) : ascii :=
  ascii_of_N (Z.to_N (if d <? 10 then 48 + d else 87 + d)).

Definition hex_of_bytes (bs : list Z) : string :=
  string_of_list_ascii
    (List.concat (map (fun b => [hex_digit (b / 16); hex_digit (b mod 16)]) bs)).

Definition sha256_hex (s : string) : string :=
  hex_of_bytes (digest (bytes_of_string s)).

End Sha256.

(* ================================================================== *)
(** ** Python values

    The values that travel through the result queues and the ledger
    file: what [json.load] can return.  A [str] is its sequence of
    (UTF-8) bytes.  A [float] is carried by its [repr], the text that
    [str], [repr] and [json.dump] all print for it. *)

Inductive pyval : Type :=
| PNone
| PBool (b : bool)
| PInt (z : Z)
| PFloat (r : string)
| PStr (s : string)
| PList (l : list pyval)
| PDict (d : list (string * pyval)).

(** Exceptions that the modelled code can raise and does not catch. *)

Inductive exn : Type :=
| KeyError (key : string)
| IndexError
| TypeError
| ValueError.

Inductive res (A : Type) : Type :=
| Ok (a : A)
| Raise (e : exn).

Arguments Ok {A} a.
Arguments Raise {A} e.

Definition bind {A B : Type} (m : res A) (k : A -> res B) : res B :=
  match m with
  | Ok a => k a
  | Raise e => Raise e
  end.

Notation "x <- m ;; k" := (bind m (fun x => k))
  (at level 61, m at next level, right associativity).

(** *** Insertion-ordered dictionaries

    A [dict] keeps its keys in insertion order and that order is what
    [str] prints, so a dictionary is an association list: assigning to
    a key that is present replaces the value in place, assigning to a
    new key appends it. *)

Section Dict.
Context {V : Type}.

Fixpoint dict_get (k : string) (d : list (string * V)) : option V :=
    match d with
    | [] => None
    | (k', v) :: d' => if String.eqb k k' then Some v else dict_get k d'
    end.

Definition dict_mem (k : string) (d : list (string * V)) : bool :=
    match dict_get k d with Some _ => true | None => false end.

Fixpoint dict_set (k : string) (v : V) (d : list (string * V))
    : list (string * V) :=
    match d with
    | [] => [(k, v)]
    | (k', v') :: d' =>
        if String.eqb k k' then (k, v) :: d' else (k', v') :: dict_set k v d'
    end.

Fixpoint dict_del (k : string) (d : list (string * V)) : list (string * V) :=
    match d with
    | [] => []
    | (k', v') :: d' =>
        if String.eqb k k' then d' else (k', v') :: dict_del k d'
    end.

  (** [d[k]] *)
Definition dict_item (k : string) (d : list (string * V)) : res V :=
    match dict_get k d with
    | Some v => Ok v
    | None => Raise (KeyError k)
    end.
End Dict.

(** *** [repr] and [str] *)

Definition dquote : ascii := ascii_of_nat 34.
Definition squote : ascii := ascii_of_nat 39.
Definition backslash : ascii := ascii_of_nat 92.

Fixpoint has_char (c : ascii) (s : string) : bool :=
  match s with
  | EmptyString => false
  | String c' s' => Ascii.eqb c c' || has_char c s'
  end.

(** [repr] of a string quotes with ['] unless the string holds a [']
    and no double quote. *)
Definition quote_of (s : string) : ascii :=
  if has_char squote s && negb (has_char dquote s) then dquote else squote.

Definition hex2 (n : Z) : string :=
  String (Sha256.hex_digit (n / 16)) (String (Sha256.hex_digit (n mod 16)) "").

(** Bytes from 128 up belong to characters outside ASCII, which [repr]
    leaves as they are when they are printable; the ones that are not,
    which [repr] escapes, are outside this model. *)
Definition escape_char (q c : ascii) : string :=
  let n := Z.of_N (N_of_ascii c) in
  if Ascii.eqb c backslash then String backslash (String backslash "")
  else if Ascii.eqb c q then String backslash (String q "")
  else if n =? 10 then String backslash "n"
  else if n =? 13 then String backslash "r"
  else if n =? 9 then String backslash "t"
  else if (n <? 32) || (n =? 127) then (String backslash "x" ++ hex2 n)%string
  else String c "".

Fixpoint escape (q : ascii) (s : string) : string :=
  match s with
  | EmptyString => ""
  | String c s' => (escape_char q c ++ escape q s')%string
  end.

Definition str_repr (s : string) : string :=
  let q := quote_of s in
  String q (escape q s ++ String q "")%string.

Definition int_repr (z : Z) : string :=
  NilZero.string_of_int (Z.to_int z).

Fixpoint join (sep : string) (l : list string) : string :=
  match l with
  | [] => ""
  | [x] => x
  | x :: l' => (x ++ sep ++ join sep l')%string
  end.

Fixpoint py_repr (v : pyval) : string :=
  match v with
  | PNone => "None"
  | PBool true => "True"
  | PBool false => "False"
  | PInt z => int_repr z
  | PFloat r => r
  | PStr s => str_repr s
  | PList l => ("[" ++ join ", " (map py_repr l) ++ "]")%string
  | PDict d =>
      ("{" ++ join ", "
                (map (fun kv => (str_repr (fst kv) ++ ": " ++ py_repr (snd kv))%string) d)
           ++ "}")%string
  end.

(** [str(v)] *)
Definition py_str (v : pyval) : string :=
  match v with
  | PStr s => s
  | _ => py_repr v
  end.

(* ================================================================== *)
(** ** Readings

    The dictionary built by [generate_sample].  The ledger builder reads
    it with [.get] and a default, so each key may be absent; the sample
    with no key at all is the empty dictionary. *)

Record Sample : Type := mkSample
  { s_timestamp : option string;
    s_frecuencia : option Z;
    s_presion : option (list Z);
    s_oxigeno : option Z }.

Definition sample_is_empty (s : Sample) : bool :=
  match s_timestamp s, s_frecuencia s, s_presion s, s_oxigeno s with
  | None, None, None, None => true
  | _, _, _, _ => false
  end.

Definition key {A : Type} (k : string) (o : option A) : res A :=
  match o with
  | Some a => Ok a
  | None => Raise (KeyError k)
  end.

(* ================================================================== *)
(** ** [class BiometricGenerator] *)

Module BiometricGenerator.
Section Run.
  (** A pipe end and what [send] and [close] do to it; [send] gives
      [None] where it raises (the consumer is gone). *)
Variable Sink : Type.
Variable send : Sink -> Sample -> option Sink.
Variable close : Sink -> Sink.

  (** The reading that the [i]-th call of [generate_sample] draws from
      the clock and the random generator. *)
Variable generate_sample : nat -> Sample.

  (** [for pipe_conn in pipes: pipe_conn.send(sample)]; the flag tells
      whether the loop ran to its end. *)
Fixpoint send_all (sample : Sample) (pipes : list Sink) : list Sink * bool :=
    match pipes with
    | [] => ([], true)
    | p :: ps =>
        match send p sample with
        | None => (p :: ps, false)
        | Some p' =>
            let (ps', ok) := send_all sample ps in (p' :: ps', ok)
        end
    end.

  (** [for i in range(self.sample_count): ...] inside the [try]. *)
Fixpoint emit (range : list nat) (pipes : list Sink) : list Sink * bool :=
    match range with
    | [] => (pipes, true)
    | i :: range' =>
        let (ps, ok) := send_all (generate_sample i) pipes in
        if ok then emit range' ps else (ps, false)
    end.

  (** [run]: the sinks after the [finally] block, and whether the
      [except] branch logged an error. *)
Definition run (sample_count : nat) (pipes : list Sink) : list Sink * bool :=
    let (ps, ok) := emit (seq 0 sample_count) pipes in
    (map close ps, negb ok).
End Run.

Definition sample_count : nat := 60.
End BiometricGenerator.

(* ================================================================== *)
(** ** [class BiometricAnalyzer] *)

(** The float operations that the analyzer uses. *)
Class FloatOps (F : Type) : Type :=
  { of_int : Z -> F;          (* float(n), and an int met by a float *)
    fadd : F -> F -> F;
    fsub : F -> F -> F;
    fdiv : F -> F -> F;
    fsquare : F -> F;         (* x ** 2 *)
    froot : F -> F }.         (* x ** 0.5 *)

(** Binary64.  [float_of_Z] is [float(n)] for [|n| < 2^63], which
    covers every reading.  The square and the root are the correctly
    rounded product and square root; the [pow] behind [x ** 2] and
    [x ** 0.5] may differ from them in the last bit, which is why the
    results on the analyzer hold for any [FloatOps]. *)
Definition float_of_Z (z : Z) : float :=
  if z <? 0 then PrimFloat.opp (PrimFloat.of_uint63 (Uint63.of_Z (- z)))
  else PrimFloat.of_uint63 (Uint63.of_Z z).

#[export] Instance binary64 : FloatOps float :=
  { of_int := float_of_Z;
    fadd := PrimFloat.add;
    fsub := PrimFloat.sub;
    fdiv := PrimFloat.div;
    fsquare := fun x => PrimFloat.mul x x;
    froot := PrimFloat.sqrt }.

Module BiometricAnalyzer.
Section Analyzer.
Context {F : Type} `{FloatOps F}.

  (** [datetime.strptime(s, "%Y-%m-%dT%H:%M:%S")] as a count of seconds
      ([None] where it raises [ValueError]); the difference of two such
      counts is [total_seconds()] of the difference of the datetimes. *)
Variable strptime : string -> option Z.

Record t : Type := mk
    { signal_type : string;
      window_data : list (Z * F);
      window_duration : Z }.

  (** [__init__] *)
Definition init (signal_type : string) : t := mk signal_type [] 30.

Definition extract_signal_value (self : t) (sample : Sample) : res F :=
    if String.eqb (signal_type self) "frecuencia" then
      v <- key "frecuencia" (s_frecuencia sample) ;; Ok (of_int v)
    else if String.eqb (signal_type self) "presion" then
      p <- key "presion" (s_presion sample) ;;
      match p with
      | sistolica :: _ => Ok (of_int sistolica)
      | [] => Raise IndexError
      end
    else if String.eqb (signal_type self) "oxigeno" then
      v <- key "oxigeno" (s_oxigeno sample) ;; Ok (of_int v)
    else Raise ValueError.

  (** The [while self.window_data] loop of [update_window]. *)
Fixpoint evict (duration current_time : Z) (w : list (Z * F)) : list (Z * F) :=
    match w with
    | [] => []
    | (sample_time, v) :: w' =>
        if duration <? current_time - sample_time
        then evict duration current_time w'
        else w
    end.

Definition update_window (self : t) (sample : Sample) : res t :=
    ts <- key "timestamp" (s_timestamp sample) ;;
    match strptime ts with
    | None => Raise ValueError
    | Some timestamp =>
        value <- extract_signal_value self sample ;;
        let appended := window_data self ++ [(timestamp, value)] in
        Ok (mk (signal_type self)
               (evict (window_duration self) timestamp appended)
               (window_duration self))
    end.

  (** [sum(xs)]: the fold of [+] from the integer 0. *)
Definition sum (xs : list F) : F := fold_left fadd xs (of_int 0).

Definition calculate_statistics (self : t) : F * F :=
    match window_data self with
    | [] => (of_int 0, of_int 0)
    | _ :: _ =>
        let values := map snd (window_data self) in
        let n := Z.of_nat (List.length values) in
        let mean := fdiv (sum values) (of_int n) in
        let std_dev :=
          if 1 <? n then
            froot (fdiv (sum (map (fun x => fsquare (fsub x mean)) values))
                        (of_int (n - 1)))
          else of_int 0 in
        (mean, std_dev)
    end.

  (** The readings of [run], one [update_window] after the other. *)
Definition feed (self : t) (samples : list Sample) : res t :=
    fold_left (fun a s => a' <- a ;; update_window a' s) samples (Ok self).

  (** The window entry that a reading contributes. *)
Definition entry_of (self : t) (sample : Sample) : res (Z * F) :=
    ts <- key "timestamp" (s_timestamp sample) ;;
    match strptime ts with
    | None => Raise ValueError
    | Some timestamp =>
        value <- extract_signal_value self sample ;; Ok (timestamp, value)
    end.
(** Entries in the order of their timestamps. *)
Definition by_time (e1 e2 : Z * F) : Prop := fst e1 <= fst e2.

(** The entries that are at most [duration] older than [now]. *)
Definition recent (duration now : Z) (e : Z * F) : bool :=
  now - fst e <=? duration.
End Analyzer.
End BiometricAnalyzer.

(* ================================================================== *)
(** ** [class BlockchainVerifier] of [main.py]: the ledger builder *)

Module LedgerBuilder.

(** What a result queue delivers; [r_original_data] is
    [result.get("original_data")]. *)
Record Result : Type := mkResult
  { r_tipo : string;
    r_timestamp : string;
    r_media : pyval;
    r_desv : pyval;
    r_original_data : option Sample }.

(** A value of [results]: [e_original] is [None] when the dictionary
    has no key ["original_data"], and [Some None] when the key holds
    Python's [None]. *)
Record Entry : Type := mkEntry
  { e_media : pyval;
    e_desv : pyval;
    e_original : option (option Sample) }.

Record Stats : Type := mkStats { media : pyval; desv : pyval }.

(** The block before its hash is set ("datos del bloque sin el hash"). *)
Record BlockData : Type := mkBlockData
  { timestamp : string;
    datos : list (string * Stats);
    alerta : bool;
    prev_hash : string }.

Record Block : Type := mkBlock
  { data : BlockData;
    hash : string }.

Record t : Type := mk
  { blockchain : list Block;
    pending_results : list (string * list (string * Entry)) }.

(** [__init__] *)
Definition init : t := mk [] [].

(** The loop that looks for the original reading: the first value of
    [results] with the key decides, whatever it holds. *)
Fixpoint find_original (results : list (string * Entry)) : option Sample :=
  match results with
  | [] => None
  | (_, result) :: rest =>
      match e_original result with
      | Some original_data => original_data
      | None => find_original rest
      end
  end.

Definition get {A : Type} (o : option A) (default : A) : A :=
  match o with Some a => a | None => default end.

Definition is_valid_data (timestamp : string) (results : list (string * Entry))
  : bool :=
  let alert := false in
  match find_original results with
  | None => true
  | Some original_data =>
      if sample_is_empty original_data then true
      else
        let frecuencia := get (s_frecuencia original_data) 0 in
        let oxigeno := get (s_oxigeno original_data) 0 in
        let presion := get (s_presion original_data) [0; 0] in
        let presion_sistolica :=
          match presion with x :: _ => x | [] => 0 end in
        let alert := if 200 <=? frecuencia then true else alert in
        let alert :=
          if negb ((90 <=? oxigeno) && (oxigeno <=? 100)) then true else alert in
        let alert := if 200 <=? presion_sistolica then true else alert in
        alert
  end.

Definition stats_to_py (s : Stats) : pyval :=
  PDict [("media", media s); ("desv", desv s)].

Definition datos_to_py (d : list (string * Stats)) : pyval :=
  PDict (map (fun kv => (fst kv, stats_to_py (snd kv))) d).

Definition calculate_hash (block_data : BlockData) : string :=
  let prev_hash := prev_hash block_data in
  let datos_str := py_str (datos_to_py (datos block_data)) in
  let timestamp := timestamp block_data in
  let hash_input := ((prev_hash ++ datos_str) ++ timestamp)%string in
  Sha256.sha256_hex hash_input.

(** [self.blockchain[-1]["hash"]], or [""] on the empty chain. *)
Definition last_hash (chain : list Block) : string :=
  match rev chain with
  | [] => ""
  | b :: _ => hash b
  end.

Definition clean (results : list (string * Entry)) : list (string * Stats) :=
  fold_left
    (fun clean_results kv =>
       dict_set (fst kv) (mkStats (e_media (snd kv)) (e_desv (snd kv))) clean_results)
    results [].

Definition create_block (self : t) (timestamp : string)
           (results : list (string * Entry)) : Block :=
  let prev_hash := last_hash (blockchain self) in
  let alert := is_valid_data timestamp results in
  let clean_results := clean results in
  let block := mkBlockData timestamp clean_results alert prev_hash in
  mkBlock block (calculate_hash block).

(** The body of the [try] in [run] for one result taken from a queue;
    the second component counts [blocks_created]. *)
Definition receive (st : t * Z) (result : Result) : t * Z :=
  let (self, blocks_created) := st in
  let timestamp := r_timestamp result in
  let tipo := r_tipo result in
  let pending :=
    if dict_mem timestamp (pending_results self)
    then pending_results self
    else dict_set timestamp [] (pending_results self) in
  let tick :=
    dict_set tipo
             (mkEntry (r_media result) (r_desv result)
                      (Some (r_original_data result)))
             (get (dict_get timestamp pending) []) in
  let pending := dict_set timestamp tick pending in
  if Z.of_nat (List.length tick) =? 3 then
    let block := create_block (mk (blockchain self) pending) timestamp tick in
    (mk (blockchain self ++ [block]) (dict_del timestamp pending),
     blocks_created + 1)
  else (mk (blockchain self) pending, blocks_created).

(** One pass of [for queue in result_queues]: what each [queue.get]
    gave, [None] for a timeout. *)
Definition pass (st : t * Z) (gets : list (option Result)) : t * Z :=
  fold_left
    (fun st g => match g with Some result => receive st result | None => st end)
    gets st.

Definition expected_blocks : Z := 60.

(** [while blocks_created < expected_blocks], over the passes that the
    queues allow. *)
Fixpoint loop (passes : list (list (option Result))) (st : t * Z) : t * Z :=
  match passes with
  | [] => st
  | gets :: passes' =>
      if snd st <? expected_blocks then loop passes' (pass st gets) else st
  end.

Definition run (self : t) (passes : list (list (option Result))) : t :=
  fst (loop passes (self, 0)).

(** [save_blockchain] followed by [load_blockchain]: the blocks as the
    dictionaries that [json.load] gives back. *)
Definition block_to_py (b : Block) : list (string * pyval) :=
  [ ("timestamp", PStr (timestamp (data b)));
    ("datos", datos_to_py (datos (data b)));
    ("alerta", PBool (alerta (data b)));
    ("prev_hash", PStr (prev_hash (data b)));
    ("hash", PStr (hash b)) ].

Definition persisted (self : t) : list (list (string * pyval)) :=
  map block_to_py (blockchain self).

(** The ledger invariant, from a given expected link. *)
Fixpoint linked (expected : string) (chain : list Block) : bool :=
  match chain with
  | [] => true
  | b :: chain' =>
      String.eqb (prev_hash (data b)) expected && linked (hash b) chain'
  end.

(** The hash that the next block must link to. *)
Definition tip (expected : string) (chain : list Block) : string :=
    match rev chain with
    | [] => expected
    | b :: _ => hash b
    end.

End LedgerBuilder.

(* ================================================================== *)
(** ** [class BlockchainVerifier] of [verificar_cadena.py] *)

Module Verifier.

(** A block of the loaded ledger: a JSON object. *)
Definition block : Type := list (string * pyval).

Record Corrupted : Type := mkCorrupted
  { c_index : Z;
    c_hash : pyval;
    c_errors : list string }.

(** [substring_of p s]: [p in s] on two strings. *)
Fixpoint substring_of (p s : string) : bool :=
  String.prefix p s ||
  match s with
  | EmptyString => false
  | String _ s' => substring_of p s'
  end.

Definition is_str (field : string) (v : pyval) : bool :=
  match v with PStr s => String.eqb s field | _ => false end.

(** [field in v] for a string [field]. *)
Definition py_contains (field : string) (v : pyval) : res bool :=
  match v with
  | PDict d => Ok (dict_mem field d)
  | PList l => Ok (existsb (is_str field) l)
  | PStr s => Ok (substring_of field s)
  | _ => Raise TypeError
  end.

(** [v[field]] for a string [field]. *)
Definition py_getitem (v : pyval) (field : string) : res pyval :=
  match v with
  | PDict d => dict_item field d
  | _ => Raise TypeError
  end.

(** [v != s] for a string [s]. *)
Definition ne_str (v : pyval) (s : string) : bool :=
  match v with PStr s' => negb (String.eqb s' s) | _ => true end.

(** [a + b] where the interpreter needs two strings. *)
Definition str_add (a b : pyval) : res pyval :=
  match a, b with
  | PStr x, PStr y => Ok (PStr (x ++ y)%string)
  | _, _ => Raise TypeError
  end.

Definition calculate_hash (block : block) : res string :=
  let prev_hash := LedgerBuilder.get (dict_get "prev_hash" block) (PStr "") in
  datos <- dict_item "datos" block ;;
  let datos_str := py_str datos in
  timestamp <- dict_item "timestamp" block ;;
  s <- str_add prev_hash (PStr datos_str) ;;
  hash_input <- str_add s timestamp ;;
  match hash_input with
  | PStr h => Ok (Sha256.sha256_hex h)
  | _ => Raise TypeError
  end.

Definition required_fields : list string :=
  ["timestamp"; "datos"; "alerta"; "prev_hash"; "hash"].

Definition required_data_fields : list string :=
  ["frecuencia"; "presion"; "oxigeno"].

Definition missing_fields (block : block) : list string :=
  flat_map
    (fun field =>
       if dict_mem field block then []
       else [("Campo requerido '" ++ field ++ "' faltante")%string])
    required_fields.

(** One turn of [for field in required_data_fields]. *)
Definition check_data_field (datos : pyval) (errors : res (list string))
           (field : string) : res (list string) :=
  errors <- errors ;;
  present <- py_contains field datos ;;
  if negb present then
    Ok (errors ++ [("Campo de datos '" ++ field ++ "' faltante")%string])
  else
    v <- py_getitem datos field ;;
    match v with
    | PDict d =>
        if negb (dict_mem "media" d) || negb (dict_mem "desv" d) then
          Ok (errors ++
              [("Subcampos 'media' o 'desv' faltantes en " ++ field)%string])
        else Ok errors
    | _ =>
        Ok (errors ++
            [("Campo de datos '" ++ field ++ "' debe ser un diccionario")%string])
    end.

Definition verify_block (index : Z) (block : block) (expected_prev_hash : string)
  : res (bool * list string) :=
  let errors := missing_fields block in
  match errors with
  | _ :: _ => Ok (false, errors)
  | [] =>
      prev <- dict_item "prev_hash" block ;;
      let errors :=
        if ne_str prev expected_prev_hash then
          errors ++ [("Prev_hash incorrecto. Esperado: " ++ expected_prev_hash
                       ++ ", Encontrado: " ++ py_str prev)%string]
        else errors in
      calculated_hash <- calculate_hash block ;;
      stored <- dict_item "hash" block ;;
      let errors :=
        if ne_str stored calculated_hash then
          errors ++ [("Hash incorrecto. Esperado: " ++ calculated_hash
                       ++ ", Encontrado: " ++ py_str stored)%string]
        else errors in
      errors <-
        (if dict_mem "datos" block then
           datos <- dict_item "datos" block ;;
           fold_left (check_data_field datos) required_data_fields (Ok errors)
         else Ok errors) ;;
      Ok (Z.of_nat (List.length errors) =? 0, errors)
  end.

(** The state of the loop of [verify_blockchain]. *)
Record scan : Type := mkScan
  { is_valid : bool;
    expected_prev_hash : string;
    corrupted_blocks : list Corrupted }.

(** [v[:16]]: strings and lists can be sliced; on a dictionary the
    slice is no key, on anything else it is no operation. *)
Definition sliceable (v : pyval) : res unit :=
  match v with
  | PStr _ | PList _ => Ok tt
  | _ => Raise TypeError
  end.

(** The body of [for i, block in enumerate(self.blockchain)]. *)
Definition step (st : scan) (i : Z) (block : block) : res scan :=
  r <- verify_block i block (expected_prev_hash st) ;;
  let (block_valid, errors) := r in
  if block_valid then
    h <- dict_item "hash" block ;;
    _ <- sliceable h ;;
    Ok (mkScan (is_valid st)
               (match h with PStr s => s | _ => expected_prev_hash st end)
               (corrupted_blocks st))
  else
    let h := LedgerBuilder.get (dict_get "hash" block) (PStr "N/A") in
    _ <- sliceable h ;;
    Ok (mkScan false
               (expected_prev_hash st)
               (corrupted_blocks st ++ [mkCorrupted i h errors])).

Fixpoint scan_from (st : scan) (i : Z) (blocks : list block) : res scan :=
  match blocks with
  | [] => Ok st
  | b :: blocks' => st' <- step st i b ;; scan_from st' (i + 1) blocks'
  end.

(** [verify_blockchain]: the verdict and [self.corrupted_blocks]. *)
Definition verify_blockchain (blockchain : list block)
  : res (bool * list Corrupted) :=
  match blockchain with
  | [] => Ok (false, [])
  | _ :: _ =>
      st <- scan_from (mkScan true "" []) 0 blockchain ;;
      Ok (is_valid st, corrupted_blocks st)
  end.


End Verifier.

(* ================================================================== *)
(** ** The statistics and the inputs that the properties are tried on *)

(** The statistics as the specification words them. *)
Section Statistics.
Context {F : Type} `{FloatOps F}.

(** The arithmetic mean: the sum of the values over their number. *)
Definition arithmetic_mean (values : list F) : F :=
  fdiv (BiometricAnalyzer.sum values) (of_int (Z.of_nat (List.length values))).

(** The standard deviation with the unbiased divisor [n - 1]: the root
    of the sum of the squared distances to the mean over [n - 1]. *)
Definition unbiased_deviation (values : list F) : F :=
  froot
    (fdiv (BiometricAnalyzer.sum
             (map (fun x => fsquare (fsub x (arithmetic_mean values))) values))
          (of_int (Z.of_nat (List.length values) - 1))).
End Statistics.

(** *** Readings, results and the ledger built from them *)

Definition reading (ts : string) (fc sys dia o2 : Z) : Sample :=
  mkSample (Some ts) (Some fc) (Some [sys; dia]) (Some o2).

Definition result_of (tipo : string) (m d : string) (s : Sample)
  : LedgerBuilder.Result :=
  LedgerBuilder.mkResult tipo (LedgerBuilder.get (s_timestamp s) "")
                         (PFloat m) (PFloat d) (Some s).

Definition tick_results (m d : string) (s : Sample)
  : list (option LedgerBuilder.Result) :=
  [ Some (result_of "frecuencia" m d s);
    Some (result_of "presion" m d s);
    Some (result_of "oxigeno" m d s) ].

Definition sample_t0 : Sample := reading "2025-01-01T00:00:00" 100 120 80 98.
Definition sample_t1 : Sample := reading "2025-01-01T00:00:01" 210 120 80 98.
Definition sample_t2 : Sample := reading "2025-01-01T00:00:02" 100 120 80 98.

Definition three_passes : list (list (option LedgerBuilder.Result)) :=
  [ tick_results "100.0" "0.0" sample_t0;
    tick_results "155.0" "77.78" sample_t1;
    tick_results "136.67" "63.51" sample_t2 ].

Definition three_blocks : LedgerBuilder.t :=
  Eval vm_compute in LedgerBuilder.run LedgerBuilder.init three_passes.

(** *** Ticks for the alert flag and for the key order *)

(** A spike of 210 bpm under window means that stay in range. *)
Definition spike_results : list (string * LedgerBuilder.Entry) :=
  [ ("frecuencia",
     LedgerBuilder.mkEntry (PFloat "103.67") (PFloat "61.49") (Some (Some sample_t1)));
    ("presion",
     LedgerBuilder.mkEntry (PFloat "120.0") (PFloat "0.0") (Some (Some sample_t1)));
    ("oxigeno",
     LedgerBuilder.mkEntry (PFloat "98.0") (PFloat "0.0") (Some (Some sample_t1))) ].

(** The same three bindings, assembled in two orders. *)
Definition stats_fc : LedgerBuilder.Entry :=
  LedgerBuilder.mkEntry (PFloat "100.0") (PFloat "0.0") (Some (Some sample_t0)).
Definition stats_pa : LedgerBuilder.Entry :=
  LedgerBuilder.mkEntry (PFloat "120.0") (PFloat "0.0") (Some (Some sample_t0)).
Definition stats_o2 : LedgerBuilder.Entry :=
  LedgerBuilder.mkEntry (PFloat "98.0") (PFloat "0.0") (Some (Some sample_t0)).

Definition results_fc_first : list (string * LedgerBuilder.Entry) :=
  [("frecuencia", stats_fc); ("presion", stats_pa); ("oxigeno", stats_o2)].
Definition results_fc_last : list (string * LedgerBuilder.Entry) :=
  [("presion", stats_pa); ("oxigeno", stats_o2); ("frecuencia", stats_fc)].

(** The same channels in the same order, read from two different
    original readings. *)
Definition results_other_reading : list (string * LedgerBuilder.Entry) :=
  [ ("frecuencia",
     LedgerBuilder.mkEntry (PFloat "100.0") (PFloat "0.0") (Some (Some sample_t1)));
    ("presion",
     LedgerBuilder.mkEntry (PFloat "120.0") (PFloat "0.0") (Some None));
    ("oxigeno",
     LedgerBuilder.mkEntry (PFloat "98.0") (PFloat "0.0") None) ].

(** *** A persisted ledger of four blocks, and ways to damage it *)

Definition sample_t3 : Sample := reading "2025-01-01T00:00:03" 100 120 80 98.

Definition four_passes : list (list (option LedgerBuilder.Result)) :=
  three_passes ++ [tick_results "127.5" "55.0" sample_t3].

Definition ledger : list Verifier.block :=
  Eval vm_compute in
    LedgerBuilder.persisted (LedgerBuilder.run LedgerBuilder.init four_passes).

Definition nth_block (i : nat) (blocks : list Verifier.block) : Verifier.block :=
  nth i blocks [].

Definition hash_of (b : Verifier.block) : string :=
  match dict_get "hash" b with Some (PStr h) => h | _ => "" end.

(** The ledger with the [hash] field of block 1 overwritten. *)
Definition tampered_ledger : list Verifier.block :=
  [ nth_block 0 ledger;
    dict_set "hash" (PStr "tampered") (nth_block 1 ledger);
    nth_block 2 ledger;
    nth_block 3 ledger ].


(** *** Blocks that [verify_block] is tried on *)

(** What [verify_block] asks of a channel of [datos]. *)
Definition channel_ok (datos : pyval) (field : string) : Prop :=
  exists d s,
    datos = PDict d /\
    dict_get field d = Some (PDict s) /\
    dict_mem "media" s = true /\
    dict_mem "desv" s = true.

(** A block with its [hash] field set to what [calculate_hash] gives. *)
Definition with_hash (b : Verifier.block) : Verifier.block :=
  match Verifier.calculate_hash b with
  | Ok h => dict_set "hash" (PStr h) b
  | Raise _ => b
  end.

Definition stats_py (m d : pyval) : pyval := PDict [("media", m); ("desv", d)].

Definition block_of_datos (datos : list (string * pyval)) : Verifier.block :=
  with_hash [ ("timestamp", PStr "2025-01-01T00:00:00");
              ("datos", PDict datos);
              ("alerta", PBool false);
              ("prev_hash", PStr "");
              ("hash", PStr "") ].

Definition datos_extra_channel : list (string * pyval) :=
  [ ("frecuencia", stats_py (PFloat "100.0") (PFloat "0.0"));
    ("presion", stats_py (PFloat "120.0") (PFloat "0.0"));
    ("oxigeno", stats_py (PFloat "98.0") (PFloat "0.0"));
    ("temperatura", stats_py (PFloat "36.5") (PFloat "0.0")) ].

Definition datos_not_numeric : list (string * pyval) :=
  [ ("frecuencia", stats_py (PStr "alta") PNone);
    ("presion", stats_py (PFloat "120.0") (PFloat "0.0"));
    ("oxigeno", stats_py (PFloat "98.0") (PFloat "0.0")) ].

Definition extra_channel_block : Verifier.block :=
  Eval vm_compute in block_of_datos datos_extra_channel.

Definition not_numeric_block : Verifier.block :=
  Eval vm_compute in block_of_datos datos_not_numeric.

(** What the specification asks of the [datos] of a valid block: the
    configured channels and no other, each with numeric [media] and
    [desv]. *)
Definition is_number (v : pyval) : bool :=
  match v with PInt _ | PFloat _ => true | _ => false end.

Definition numeric_stats (v : pyval) : bool :=
  match v with
  | PDict s =>
      match dict_get "media" s, dict_get "desv" s with
      | Some m, Some d => is_number m && is_number d
      | _, _ => false
      end
  | _ => false
  end.

Definition exactly_configured (datos : pyval) : bool :=
  match datos with
  | PDict d =>
      (Z.of_nat (List.length d) =? 3) &&
      forallb (fun field =>
                 match dict_get field d with
                 | Some v => numeric_stats v
                 | None => false
                 end)
              Verifier.required_data_fields
  | _ => false
  end.

(** Block 1 of the ledger with its alert flag flipped. *)
Definition flipped_alert_block : Verifier.block :=
  dict_set "alerta" (PBool false) (nth_block 1 ledger).


Definition hash0 : string := Eval vm_compute in hash_of (nth_block 0 ledger).

(** *** Readings for the window: three of 100 bpm, and later ones *)

Definition example_clock : list (string * Z) :=
  [ ("2025-01-01T00:00:00", 0); ("2025-01-01T00:00:01", 1);
    ("2025-01-01T00:00:02", 2); ("2025-01-01T00:00:31", 31) ].

(** [strptime] on the timestamps of the example readings, in seconds
    from the first of them. *)
Definition example_strptime (s : string) : option Z := dict_get s example_clock.

Definition sample_t31 : Sample := reading "2025-01-01T00:00:31" 130 120 80 98.

Definition analyzer0 : BiometricAnalyzer.t (F := float) :=
  BiometricAnalyzer.init "frecuencia".

(** Three readings of 100 bpm at seconds 0, 1 and 2 give mean 100.0 and
    deviation 0.0. *)
Definition steady_window : BiometricAnalyzer.t (F := float) :=
  BiometricAnalyzer.mk "frecuencia"
                       [(0, 100%float); (1, 100%float); (2, 100%float)] 30.

(** *** A pipe whose consumer may be gone *)

Record Pipe : Type := mkPipe
  { consumer_alive : bool;
    received : list Sample;
    closed : bool }.

Definition pipe_send (p : Pipe) (s : Sample) : option Pipe :=
  if consumer_alive p && negb (closed p)
  then Some (mkPipe (consumer_alive p) (received p ++ [s]) (closed p))
  else None.

Definition pipe_close (p : Pipe) : Pipe :=
  mkPipe (consumer_alive p) (received p) true.

Definition example_sample (i : nat) : Sample :=
  reading "2025-01-01T00:00:00" (60 + Z.of_nat i) 120 80 98.

Definition open_pipe : Pipe := mkPipe true [] false.
Definition dead_pipe : Pipe := mkPipe false [] false.

(** The consumer of the second sink goes away after two readings. *)
Definition pipes_after_two : list Pipe :=
  [ mkPipe true [example_sample 0; example_sample 1] false;
    mkPipe false [example_sample 0; example_sample 1] false;
    mkPipe true [example_sample 0; example_sample 1] false ].

(* ================================================================== *)
(** ** What the verifier's verdict stands for *)

(** A ledger whose blocks link from [expected], store the hash that
    [calculate_hash] recomputes, and hold the three channels. *)
Fixpoint consistent (expected : string) (blocks : list Verifier.block) : Prop :=
  match blocks with
  | [] => True
  | b :: blocks' =>
      exists h,
        dict_get "prev_hash" b = Some (PStr expected) /\
        dict_get "hash" b = Some (PStr h) /\
        Verifier.calculate_hash b = Ok h /\
        (exists datos,
            dict_get "datos" b = Some datos /\
            Forall (channel_ok datos) Verifier.required_data_fields) /\
        consistent h blocks'
  end.

Definition is_string (v : pyval) : bool :=
  match v with PStr _ => true | _ => false end.

(** The message that [verify_block] gives for a missing field. *)
Definition missing_message (field : string) : string :=
  ("Campo requerido '" ++ field ++ "' faltante")%string.

(* ================================================================== *)
(** ** What the builder keeps of its ticks and blocks *)

(** A result whose channel is one of the three that [main] starts. *)
Definition configured_get (g : option LedgerBuilder.Result) : Prop :=
  match g with
  | Some result => In (LedgerBuilder.r_tipo result) Verifier.required_data_fields
  | None => True
  end.

(** A tick under assembly: distinct channels, all of them configured. *)
Definition configured_tick (tick : list (string * LedgerBuilder.Entry)) : Prop :=
  NoDup (map fst tick) /\
  Forall (fun k => In k Verifier.required_data_fields) (map fst tick).

(** A block with its own hash and, in [datos], the three channels and
    no other. *)
Definition good_block (b : LedgerBuilder.Block) : Prop :=
  LedgerBuilder.hash b = LedgerBuilder.calculate_hash (LedgerBuilder.data b) /\
  Forall (fun field => dict_mem field (LedgerBuilder.datos (LedgerBuilder.data b)) = true)
         Verifier.required_data_fields /\
  NoDup (map fst (LedgerBuilder.datos (LedgerBuilder.data b))) /\
  List.length (LedgerBuilder.datos (LedgerBuilder.data b)) = 3%nat.

(** The statistics that [create_block] keeps of a record. *)
Definition stats_of (kv : string * LedgerBuilder.Entry) : string * LedgerBuilder.Stats :=
  (fst kv,
   LedgerBuilder.mkStats (LedgerBuilder.e_media (snd kv))
                         (LedgerBuilder.e_desv (snd kv))).

(** *** A run in which three ticks complete in the last pass *)

Definition tick_name (i : nat) : string := ("t" ++ int_repr (Z.of_nat i))%string.

Definition result_at (tipo : string) (i : nat) : option LedgerBuilder.Result :=
  Some (LedgerBuilder.mkResult tipo (tick_name i) (PFloat "0.0") (PFloat "0.0")
                               (Some sample_t0)).

Definition lockstep_pass (i : nat) : list (option LedgerBuilder.Result) :=
  [result_at "frecuencia" i; result_at "presion" i; result_at "oxigeno" i].

(** Two passes leave the ticks 100, 101 and 102 with two records each;
    59 ticks then arrive in step; the last pass brings the three
    records that were missing. *)
Definition overshoot_passes : list (list (option LedgerBuilder.Result)) :=
  [ [result_at "frecuencia" 100; result_at "presion" 100; result_at "oxigeno" 101];
    [result_at "frecuencia" 101; result_at "presion" 102; result_at "oxigeno" 102] ]
  ++ map lockstep_pass (seq 0 59)
  ++ [ [result_at "frecuencia" 102; result_at "presion" 101; result_at "oxigeno" 100] ].

(** The ticks under assembly hold one or two records each, under
    distinct timestamps. *)
Definition partial_ticks (st : LedgerBuilder.t * Z) : Prop :=
  NoDup (map fst (LedgerBuilder.pending_results (fst st))) /\
  Forall (fun kv => (1 <= List.length (snd kv) <= 2)%nat)
         (LedgerBuilder.pending_results (fst st)).

(** What [verify_blockchain] records on the tampered ledger. *)
Definition tampered_corrupted :=
  Eval vm_compute in
    match Verifier.verify_blockchain tampered_ledger with
    | Ok (_, corrupted) => corrupted
    | Raise _ => []
    end.

(** *** Results that arrive in step *)

(** A pass in which the three queues deliver the three records of one
    tick. *)
Definition lockstep (gets : list (option LedgerBuilder.Result)) : Prop :=
  exists r1 r2 r3,
    gets = [Some r1; Some r2; Some r3] /\
    LedgerBuilder.r_timestamp r2 = LedgerBuilder.r_timestamp r1 /\
    LedgerBuilder.r_timestamp r3 = LedgerBuilder.r_timestamp r1 /\
    NoDup [LedgerBuilder.r_tipo r1; LedgerBuilder.r_tipo r2; LedgerBuilder.r_tipo r3].

Definition pass_timestamp (gets : list (option LedgerBuilder.Result)) : string :=
  match gets with
  | Some r :: _ => LedgerBuilder.r_timestamp r
  | _ => ""
  end.

Definition pass_channels (gets : list (option LedgerBuilder.Result)) : list string :=
  flat_map (fun g => match g with
                     | Some r => [LedgerBuilder.r_tipo r]
                     | None => []
                     end) gets.

(** *** What [generate_sample] can return

    [random.randint(a, b)] gives an integer [n] with [a <= n <= b];
    the timestamp is the clock's. *)
Definition generated (s : Sample) : Prop :=
  exists now frecuencia sistolica diastolica oxigeno,
    s = mkSample (Some now) (Some frecuencia) (Some [sistolica; diastolica])
                 (Some oxigeno) /\
    60 <= frecuencia <= 180 /\
    110 <= sistolica <= 180 /\
    70 <= diastolica <= 110 /\
    90 <= oxigeno <= 100.

(** *** Timestamps that grow from one reading to the next *)

Section StrictOrder.
Context {F : Type}.

Definition strictly_by_time (e1 e2 : Z * F) : Prop := fst e1 < fst e2.
End StrictOrder.

(** Forty readings, one per second. *)
Definition second_clock : list (string * Z) :=
  map (fun i => (tick_name i, Z.of_nat i)) (seq 0 40).

Definition second_strptime (s : string) : option Z := dict_get s second_clock.

Definition second_samples : list Sample :=
  map (fun i => reading (tick_name i) 100 120 80 98) (seq 0 40).

(** A window whose entries are not in the order of their timestamps. *)
Definition shuffled_window : BiometricAnalyzer.t (F := float) :=
  BiometricAnalyzer.mk "frecuencia"
                       [(0, 100%float); (40, 100%float); (2, 100%float)] 30.

(* ================================================================== *)
(** ** [BiometricAnalyzer.run] *)

Module AnalyzerProcess.
Section Run.
Context {F : Type} `{FloatOps F}.
Variable strptime : string -> option Z.

(** [round(x, 2)] *)
Variable round2 : F -> F.

(** The dictionary that [run] puts on the result queue. *)
Record Emitted : Type := mkEmitted
  { tipo : string;
    timestamp : string;
    media : F;
    desv : F;
    original_data : Sample }.

(** The [while samples_received < 60] loop on the readings that the
    pipe delivers before its end; [queue] holds what has been put.
    The end of the pipe ([EOFError]) leaves the loop, and so does any
    other exception, which the outer [except] catches. *)
Fixpoint run_from (self : BiometricAnalyzer.t) (pipe : list Sample)
         (samples_received : nat) (queue : list Emitted)
  : BiometricAnalyzer.t * list Emitted :=
  match pipe with
  | [] => (self, queue)
  | sample :: pipe' =>
      if (samples_received <? 60)%nat then
        match BiometricAnalyzer.update_window strptime self sample with
        | Raise _ => (self, queue)
        | Ok self' =>
            let (mean, std_dev) := BiometricAnalyzer.calculate_statistics self' in
            match s_timestamp sample with
            | None => (self', queue)
            | Some ts =>
                let result :=
                  mkEmitted (BiometricAnalyzer.signal_type self') ts
                            (round2 mean) (round2 std_dev) sample in
                run_from self' pipe' (S samples_received) (queue ++ [result])
            end
        end
      else (self, queue)
  end.

Definition run (self : BiometricAnalyzer.t) (pipe : list Sample)
  : BiometricAnalyzer.t * list Emitted :=
  run_from self pipe 0 [].
End Run.
End AnalyzerProcess.

(* ================================================================== *)
(** * Properties *)

Example sha256_empty :
  Sha256.sha256_hex "" =
  "e3b0c44298fc1c149afbf4c8996fb92427ae41e4649b934ca495991b7852b855".
Proof. vm_compute. reflexivity. Qed.

Example sha256_abc :
  Sha256.sha256_hex "abc" =
  "ba7816bf8f01cfea414140de5dae2223b00361a396177a9cb410ff61f20015ad".
Proof. vm_compute. reflexivity. Qed.

Example sha256_two_blocks :
  Sha256.sha256_hex "abcdbcdecdefdefgefghfghighijhijkijkljklmklmnlmnomnopnopq" =
  "248d6a61d20638b8e5c026930c3e6039a33ce45964ff2167f6ecedd419db06c1".
Proof. vm_compute. reflexivity. Qed.

Example py_str_datos :
  py_str (PDict [("frecuencia", PDict [("media", PFloat "100.0"); ("desv", PFloat "0.0")]);
                 ("oxigeno", PDict [("media", PInt (-3)); ("desv", PStr "it's")])]) =
  ("{'frecuencia': {'media': 100.0, 'desv': 0.0}, 'oxigeno': {'media': -3, 'desv': "
     ++ String dquote ("it's" ++ String dquote "}}"))%string.
Proof. vm_compute. reflexivity. Qed.

(** ** The ledger builder *)

Section BuilderFacts.
Import LedgerBuilder.

Lemma last_hash_snoc (chain : list Block) (b : Block) :
    last_hash (chain ++ [b]) = hash b.
Proof. unfold last_hash. now rewrite rev_unit. Qed.

Lemma tip_cons (expected : string) (x : Block) (chain : list Block) :
    tip expected (x :: chain) = tip (hash x) chain.
Proof.
    unfold tip. cbn [rev]. now destruct (rev chain).
Qed.

Lemma linked_snoc (chain : list Block) (b : Block) (expected : string) :
    linked expected (chain ++ [b]) =
    linked expected chain &&
    String.eqb (prev_hash (data b)) (tip expected chain).
Proof.
    revert expected.
    induction chain as [|x chain IH]; intros expected; cbn [app linked].
    - now rewrite andb_true_r.
    - now rewrite IH, tip_cons, andb_assoc.
Qed.

Lemma linked_nth (chain : list Block) (expected : string) :
    linked expected chain = true ->
    (forall b, nth_error chain 0 = Some b -> prev_hash (data b) = expected) /\
    (forall i b b',
        nth_error chain i = Some b -> nth_error chain (S i) = Some b' ->
        prev_hash (data b') = hash b).
Proof.
    revert expected.
    induction chain as [|x chain IH]; intros expected Hl.
    - split; [intros b Hb | intros [|i] b b' Hb]; discriminate.
    - cbn [linked] in Hl. apply andb_true_iff in Hl as [Hx Hc].
      apply String.eqb_eq in Hx. destruct (IH _ Hc) as [H0 HS].
      split.
      + intros b Hb. cbn in Hb. now inversion Hb; subst.
      + intros [|i] b b' Hb Hb'; cbn in Hb, Hb'.
        * inversion Hb; subst. now apply H0.
        * now apply (HS i).
Qed.

  (** Every chain that [run] builds is built by appending blocks that
      [create_block] made from the chain so far. *)
Section Invariant.
Variable P : list Block -> Prop.
Hypothesis P_append :
      forall self timestamp results,
        P (blockchain self) ->
        P (blockchain self ++ [create_block self timestamp results]).

Lemma receive_invariant (st : t * Z) (result : Result) :
      P (blockchain (fst st)) -> P (blockchain (fst (receive st result))).
Proof.
      destruct st as [self n]. unfold receive. cbn [fst]. intros HP.
      match goal with
      | |- context [if ?c then (?x, _) else _] => destruct c
      end; cbn [fst blockchain]; [|exact HP].
      match goal with
      | |- P (_ ++ [create_block (mk ?c ?p) ?ts ?tk]) =>
          exact (P_append (mk c p) ts tk HP)
      end.
Qed.

Lemma pass_invariant (gets : list (option Result)) (st : t * Z) :
      P (blockchain (fst st)) -> P (blockchain (fst (pass st gets))).
Proof.
      unfold pass. revert st.
      induction gets as [|g gets IH]; intros st HP; [exact HP|].
      cbn [fold_left]. apply IH. destruct g; [now apply receive_invariant|exact HP].
Qed.

Lemma loop_invariant (passes : list (list (option Result))) (st : t * Z) :
      P (blockchain (fst st)) -> P (blockchain (fst (loop passes st))).
Proof.
      revert st.
      induction passes as [|gets passes IH]; intros st HP; [exact HP|].
      cbn [loop]. destruct (snd st <? expected_blocks); [|exact HP].
      apply IH. now apply pass_invariant.
Qed.

Lemma run_invariant (self : t) (passes : list (list (option Result))) :
      P (blockchain self) -> P (blockchain (run self passes)).
Proof. intros HP. unfold run. now apply (loop_invariant passes (self, 0)). Qed.
End Invariant.

Lemma create_block_linked (self : t) (timestamp : string)
        (results : list (string * Entry)) :
    linked "" (blockchain self) = true ->
    linked "" (blockchain self ++ [create_block self timestamp results]) = true.
Proof.
    intros Hl. rewrite linked_snoc, Hl. cbn [andb create_block data prev_hash].
    apply String.eqb_eq. reflexivity.
Qed.
End BuilderFacts.

(** *** The example ledger *)

Lemma three_blocks_run :
  LedgerBuilder.run LedgerBuilder.init three_passes = three_blocks.
Proof. vm_compute. reflexivity. Qed.

Example three_blocks_made :
  List.length (LedgerBuilder.blockchain three_blocks) = 3%nat /\
  LedgerBuilder.pending_results three_blocks = [].
Proof. split; reflexivity. Qed.

(** *** The claims on the ledger builder *)

(** C1: the hash that [create_block] stores in a block is the one that
    the verifier's [calculate_hash] recomputes from the persisted
    block, SHA-256 of [prev_hash + str(datos) + timestamp]; so it is
    for every block of every ledger that [run] persists. *)
Theorem C1_stored_hash_recomputed
        (self : LedgerBuilder.t) (timestamp : string)
        (results : list (string * LedgerBuilder.Entry))
        (passes : list (list (option LedgerBuilder.Result))) :
  Verifier.calculate_hash
    (LedgerBuilder.block_to_py (LedgerBuilder.create_block self timestamp results))
  = Ok (LedgerBuilder.hash (LedgerBuilder.create_block self timestamp results))
  /\
  Forall
    (fun blk =>
       exists h,
         dict_get "hash" blk = Some (PStr h) /\
         Verifier.calculate_hash blk = Ok h /\
         exists p d t,
           dict_get "prev_hash" blk = Some (PStr p) /\
           dict_get "datos" blk = Some d /\
           dict_get "timestamp" blk = Some (PStr t) /\
           h = Sha256.sha256_hex ((p ++ py_str d) ++ t)%string)
    (LedgerBuilder.persisted (LedgerBuilder.run LedgerBuilder.init passes)).
Proof.
  split; [reflexivity|].
  unfold LedgerBuilder.persisted. apply Forall_map.
  assert (Hh : Forall (fun b => LedgerBuilder.hash b =
                               LedgerBuilder.calculate_hash (LedgerBuilder.data b))
                      (LedgerBuilder.blockchain
                         (LedgerBuilder.run LedgerBuilder.init passes))).
  { apply (run_invariant
             (Forall (fun b => LedgerBuilder.hash b =
                               LedgerBuilder.calculate_hash (LedgerBuilder.data b)))).
    - intros s ts rs Hs. apply Forall_app. split; [exact Hs|].
      constructor; [reflexivity|constructor].
    - constructor. }
  revert Hh. apply Forall_impl. intros b Hb.
  exists (LedgerBuilder.hash b).
  split; [reflexivity|]. split.
  - cbn in Hb |- *. now rewrite Hb.
  - eexists _, _, _. repeat split; [reflexivity .. | exact Hb].
Qed.

(** C2: in every ledger that [run] builds, the first block has the
    empty [prev_hash] and every later block's [prev_hash] is the [hash]
    of the block before it; each append by [create_block] keeps it so. *)
Theorem C2_chain_linked
        (passes : list (list (option LedgerBuilder.Result))) :
  let chain := LedgerBuilder.blockchain (LedgerBuilder.run LedgerBuilder.init passes) in
  (forall b, nth_error chain 0 = Some b ->
             LedgerBuilder.prev_hash (LedgerBuilder.data b) = "") /\
  (forall i b b',
      nth_error chain i = Some b -> nth_error chain (S i) = Some b' ->
      LedgerBuilder.prev_hash (LedgerBuilder.data b') = LedgerBuilder.hash b) /\
  (forall self timestamp results,
      LedgerBuilder.linked "" (LedgerBuilder.blockchain self) = true ->
      LedgerBuilder.linked ""
        (LedgerBuilder.blockchain self
           ++ [LedgerBuilder.create_block self timestamp results]) = true).
Proof.
  intros chain.
  assert (Hl : LedgerBuilder.linked "" chain = true).
  { apply (run_invariant (fun c => LedgerBuilder.linked "" c = true));
      [exact create_block_linked | reflexivity]. }
  destruct (linked_nth _ _ Hl) as [H0 HS].
  split; [exact H0|]. split; [exact HS|]. exact create_block_linked.
Qed.

Lemma C2_chain_linked_witness :
  exists b0 b1 b2,
    LedgerBuilder.blockchain three_blocks = [b0; b1; b2] /\
    LedgerBuilder.prev_hash (LedgerBuilder.data b0) = "" /\
    LedgerBuilder.prev_hash (LedgerBuilder.data b1) = LedgerBuilder.hash b0 /\
    LedgerBuilder.prev_hash (LedgerBuilder.data b2) = LedgerBuilder.hash b1.
Proof.
  pose proof (C2_chain_linked three_passes) as [H0 [HS _]].
  rewrite three_blocks_run in H0, HS.
  eexists _, _, _. split; [reflexivity|].
  split; [exact (H0 _ eq_refl)|].
  split; [exact (HS 0%nat _ _ eq_refl eq_refl) | exact (HS 1%nat _ _ eq_refl eq_refl)].
Defined.

(** C3: when every record of the tick embeds the original reading, the
    block's alert flag is set exactly when that reading has
    [frecuencia >= 200], or [oxigeno] outside [[90, 100]], or
    [presion[0] >= 200]; the means and deviations of the records play
    no part. *)
Theorem C3_alert_from_original_reading
        (self : LedgerBuilder.t) (timestamp : string)
        (results : list (string * LedgerBuilder.Entry))
        (original : Sample) (frecuencia oxigeno sistolica : Z) (rest : list Z) :
  results <> [] ->
  Forall (fun kv => LedgerBuilder.e_original (snd kv) = Some (Some original))
         results ->
  s_frecuencia original = Some frecuencia ->
  s_oxigeno original = Some oxigeno ->
  s_presion original = Some (sistolica :: rest) ->
  LedgerBuilder.alerta
    (LedgerBuilder.data (LedgerBuilder.create_block self timestamp results)) = true
  <-> (200 <= frecuencia \/ oxigeno < 90 \/ 100 < oxigeno \/ 200 <= sistolica).
Proof.
  intros Hne Hall Hf Ho Hp.
  destruct results as [|[k e] results]; [contradiction|].
  apply Forall_inv in Hall. cbn [snd] in Hall.
  cbn [LedgerBuilder.create_block LedgerBuilder.data LedgerBuilder.alerta].
  unfold LedgerBuilder.is_valid_data.
  cbn [LedgerBuilder.find_original]. rewrite Hall.
  unfold sample_is_empty. rewrite Hf, Ho, Hp.
  destruct (s_timestamp original); cbn [LedgerBuilder.get];
    destruct (200 <=? frecuencia) eqn:E1, (90 <=? oxigeno) eqn:E2,
             (oxigeno <=? 100) eqn:E3, (200 <=? sistolica) eqn:E4;
    cbn [andb negb]; split; intros Hx; try reflexivity; try discriminate; lia.
Qed.

Lemma C3_alert_from_original_reading_witness :
  LedgerBuilder.alerta
    (LedgerBuilder.data
       (LedgerBuilder.create_block LedgerBuilder.init "2025-01-01T00:00:01"
                                   spike_results)) = true.
Proof.
  apply (C3_alert_from_original_reading
           LedgerBuilder.init "2025-01-01T00:00:01" spike_results
           sample_t1 210 98 120 [80]).
  - discriminate.
  - repeat constructor.
  - reflexivity.
  - reflexivity.
  - reflexivity.
  - left. lia.
Defined.

(** *** Key order and the hash *)

Lemma clean_projection (r1 r2 : list (string * LedgerBuilder.Entry)) :
  map (fun kv => (fst kv, LedgerBuilder.e_media (snd kv),
                  LedgerBuilder.e_desv (snd kv))) r1
  = map (fun kv => (fst kv, LedgerBuilder.e_media (snd kv),
                    LedgerBuilder.e_desv (snd kv))) r2 ->
  LedgerBuilder.clean r1 = LedgerBuilder.clean r2.
Proof.
  unfold LedgerBuilder.clean. generalize (@nil (string * LedgerBuilder.Stats)).
  revert r2.
  induction r1 as [|[k1 e1] r1 IH]; intros [|[k2 e2] r2] acc Hm;
    try discriminate; [reflexivity|].
  cbn in Hm. inversion Hm as [[Hk Hmedia Hdesv Hrest]].
  cbn [fold_left fst snd]. rewrite Hmedia, Hdesv. now apply IH.
Qed.

(** C5, as stated, fails: two results maps with the same bindings,
    where the queue of [frecuencia] answered first in one and last in
    the other, give two different hashes. *)
Lemma C5_insertion_order_changes_hash :
  (forall k, dict_get k results_fc_first = dict_get k results_fc_last) /\
  LedgerBuilder.hash
    (LedgerBuilder.create_block LedgerBuilder.init "2025-01-01T00:00:00"
                                results_fc_first)
  <> LedgerBuilder.hash
       (LedgerBuilder.create_block LedgerBuilder.init "2025-01-01T00:00:00"
                                   results_fc_last).
Proof.
  split.
  - intros k. unfold results_fc_first, results_fc_last. cbn [dict_get].
    destruct (String.eqb_spec k "frecuencia") as [->|]; [reflexivity|].
    destruct (String.eqb_spec k "presion") as [->|]; [reflexivity|].
    destruct (String.eqb_spec k "oxigeno") as [->|]; reflexivity.
  - vm_compute. discriminate.
Qed.

(** C5, amended: the hash is a function of the bindings in their
    insertion order.  Two results maps that list the same channels in
    the same order with the same [media] and [desv] give the same
    hash, and the verifier recomputes that hash from the persisted
    block, which keeps the order. *)
Theorem C5_hash_of_ordered_bindings
        (self : LedgerBuilder.t) (timestamp : string)
        (r1 r2 : list (string * LedgerBuilder.Entry)) :
  map (fun kv => (fst kv, LedgerBuilder.e_media (snd kv),
                  LedgerBuilder.e_desv (snd kv))) r1
  = map (fun kv => (fst kv, LedgerBuilder.e_media (snd kv),
                    LedgerBuilder.e_desv (snd kv))) r2 ->
  LedgerBuilder.hash (LedgerBuilder.create_block self timestamp r1)
  = LedgerBuilder.hash (LedgerBuilder.create_block self timestamp r2)
  /\
  Verifier.calculate_hash
    (LedgerBuilder.block_to_py (LedgerBuilder.create_block self timestamp r1))
  = Ok (LedgerBuilder.hash (LedgerBuilder.create_block self timestamp r2)).
Proof.
  intros Hm. apply clean_projection in Hm.
  assert (He : LedgerBuilder.hash (LedgerBuilder.create_block self timestamp r1)
               = LedgerBuilder.hash (LedgerBuilder.create_block self timestamp r2)).
  { cbn [LedgerBuilder.create_block LedgerBuilder.hash].
    unfold LedgerBuilder.calculate_hash.
    cbn [LedgerBuilder.prev_hash LedgerBuilder.datos LedgerBuilder.timestamp].
    now rewrite Hm. }
  split; [exact He|]. rewrite <- He. reflexivity.
Qed.

Lemma C5_hash_of_ordered_bindings_witness :
  LedgerBuilder.hash
    (LedgerBuilder.create_block LedgerBuilder.init "2025-01-01T00:00:00"
                                results_fc_first)
  = LedgerBuilder.hash
      (LedgerBuilder.create_block LedgerBuilder.init "2025-01-01T00:00:00"
                                  results_other_reading).
Proof.
  apply (C5_hash_of_ordered_bindings
           LedgerBuilder.init "2025-01-01T00:00:00"
           results_fc_first results_other_reading).
  reflexivity.
Defined.

(* ================================================================== *)
(** ** The verifier *)

Example ledger_verifies :
  Verifier.verify_blockchain ledger = Ok (true, []).
Proof. vm_compute. reflexivity. Qed.

(** *** Facts on [verify_block] *)

Lemma snoc_not_nil {A : Type} (l : list A) (x : A) : l ++ [x] <> [].
Proof. destruct l; discriminate. Qed.

Lemma check_data_field_ok (datos : pyval) (errors errors' : list string)
      (field : string) :
  Verifier.check_data_field datos (Ok errors) field = Ok errors' ->
  (errors' = errors /\ channel_ok datos field) \/
  (exists m, errors' = errors ++ [m]).
Proof.
  unfold Verifier.check_data_field. cbn [bind].
  destruct (Verifier.py_contains field datos) as [present|] eqn:Hc;
    cbn [bind]; [|discriminate].
  destruct present; cbn [negb].
  - destruct (Verifier.py_getitem datos field) as [v|] eqn:Hg;
      cbn [bind]; [|discriminate].
    destruct datos; try discriminate. cbn in Hg. unfold dict_item in Hg.
    destruct (dict_get field d) as [v'|] eqn:Hd; [|discriminate].
    inversion Hg; subst v'.
    destruct v; try (intros Heq; inversion Heq; right; eexists; reflexivity).
    destruct (dict_mem "media" d0) eqn:Hm, (dict_mem "desv" d0) eqn:Hs;
      cbn [negb orb]; intros Heq; inversion Heq;
      try (right; eexists; reflexivity).
    left. split; [reflexivity|]. exists d, d0. auto.
  - intros Heq. inversion Heq. right. eexists. reflexivity.
Qed.

Lemma check_data_fields_raise (datos : pyval) (fields : list string) (e : exn) :
  fold_left (Verifier.check_data_field datos) fields (Raise e) = Raise e.
Proof. induction fields as [|f fields IH]; [reflexivity|exact IH]. Qed.

Lemma check_data_fields_ok (datos : pyval) (fields : list string)
      (errors : list string) :
  fold_left (Verifier.check_data_field datos) fields (Ok errors) = Ok [] ->
  errors = [] /\ Forall (channel_ok datos) fields.
Proof.
  revert errors.
  induction fields as [|f fields IH]; intros errors Hf; cbn [fold_left] in Hf.
  - inversion Hf. split; [reflexivity|constructor].
  - destruct (Verifier.check_data_field datos (Ok errors) f) as [e1|x] eqn:Hc.
    + destruct (IH _ Hf) as [He1 Hall]. subst e1.
      destruct (check_data_field_ok _ _ _ _ Hc) as [[He Hok]|[m Hm]].
      * split; [now symmetry|]. now constructor.
      * symmetry in Hm. now apply snoc_not_nil in Hm.
    + now rewrite check_data_fields_raise in Hf.
Qed.

Lemma length_zero_nil {A : Type} (l : list A) :
  (Z.of_nat (List.length l) =? 0) = true -> l = [].
Proof. destruct l; [reflexivity|]. cbn. discriminate. Qed.

Lemma missing_fields_nil (b : Verifier.block) :
  Verifier.missing_fields b = [] ->
  Forall (fun field => dict_mem field b = true) Verifier.required_fields.
Proof.
  unfold Verifier.missing_fields, Verifier.required_fields. cbn [flat_map].
  destruct (dict_mem "timestamp" b) eqn:H1; [|discriminate].
  destruct (dict_mem "datos" b) eqn:H2; [|discriminate].
  destruct (dict_mem "alerta" b) eqn:H3; [|discriminate].
  destruct (dict_mem "prev_hash" b) eqn:H4; [|discriminate].
  destruct (dict_mem "hash" b) eqn:H5; [|discriminate].
  intros _. repeat constructor; assumption.
Qed.

(** A block found valid stores, as a string, the hash that
    [calculate_hash] recomputes; [step] takes it as the next
    [expected_prev_hash]. *)
Lemma valid_block_stored_hash
      (index : Z) (b : Verifier.block) (expected : string)
      (errors : list string) :
  Verifier.verify_block index b expected = Ok (true, errors) ->
  exists h,
    dict_get "hash" b = Some (PStr h) /\ Verifier.calculate_hash b = Ok h.
Proof.
  unfold Verifier.verify_block.
  destruct (Verifier.missing_fields b) eqn:Hm; [|discriminate].
  destruct (dict_item "prev_hash" b); cbn [bind]; [|discriminate].
  destruct (Verifier.calculate_hash b) as [calculated|]; cbn [bind]; [|discriminate].
  unfold dict_item at 1.
  destruct (dict_get "hash" b) as [stored|]; cbn [bind]; [|discriminate].
  match goal with
  | |- context [bind ?m _] => destruct m as [errs|] eqn:Hf
  end; cbn [bind]; [|discriminate].
  intros Hv. inversion Hv as [[Hlen He]]. subst.
  apply length_zero_nil in Hlen. subst errors.
  destruct (Verifier.ne_str stored calculated) eqn:Hne.
  { exfalso.
    destruct (dict_mem "datos" b).
    - destruct (dict_item "datos" b); cbn [bind] in Hf; [|discriminate].
      apply check_data_fields_ok in Hf as [Hf _].
      now apply snoc_not_nil in Hf.
    - injection Hf as Hf. now apply snoc_not_nil in Hf. }
  exists calculated. split; [|reflexivity].
  destruct stored; try discriminate. cbn in Hne.
  apply negb_false_iff, String.eqb_eq in Hne. now subst.
Qed.

(** *** The claims on [verify_block] *)

(** C6, as stated, fails: [verify_block] accepts a block whose [datos]
    holds a fourth channel, and a block whose [media] and [desv] are
    no numbers. *)
Lemma C6_extra_channel_and_non_numeric_accepted :
  (Verifier.verify_block 0 extra_channel_block "" = Ok (true, []) /\
   dict_get "datos" extra_channel_block = Some (PDict datos_extra_channel) /\
   exactly_configured (PDict datos_extra_channel) = false) /\
  (Verifier.verify_block 0 not_numeric_block "" = Ok (true, []) /\
   dict_get "datos" not_numeric_block = Some (PDict datos_not_numeric) /\
   exactly_configured (PDict datos_not_numeric) = false).
Proof. repeat split; vm_compute; reflexivity. Qed.

(** C6, amended: [verify_block] reports a block as valid only if its
    [datos] is a dictionary that holds each of the channels
    [frecuencia], [presion] and [oxigeno], each one a dictionary with
    the keys [media] and [desv]. *)
Theorem C6_valid_block_has_channels
        (index : Z) (b : Verifier.block) (expected : string)
        (errors : list string) :
  Verifier.verify_block index b expected = Ok (true, errors) ->
  errors = [] /\
  exists datos,
    dict_get "datos" b = Some datos /\
    Forall (channel_ok datos) Verifier.required_data_fields.
Proof.
  unfold Verifier.verify_block.
  destruct (Verifier.missing_fields b) eqn:Hm; [|discriminate].
  apply missing_fields_nil in Hm.
  assert (Hd : dict_mem "datos" b = true).
  { unfold Verifier.required_fields in Hm.
    now inversion Hm as [|? ? _ Hm1]; inversion Hm1. }
  destruct (dict_item "prev_hash" b); cbn [bind]; [|discriminate].
  destruct (Verifier.calculate_hash b); cbn [bind]; [|discriminate].
  destruct (dict_item "hash" b); cbn [bind]; [|discriminate].
  rewrite Hd. unfold dict_item at 1.
  destruct (dict_get "datos" b) as [datos|] eqn:Hg; cbn [bind]; [|discriminate].
  match goal with
  | |- context [fold_left ?f ?l ?a] => destruct (fold_left f l a) eqn:Hf
  end; cbn [bind]; [|discriminate].
  intros Hv. inversion Hv as [[Hlen He]]. subst.
  apply length_zero_nil in Hlen. subst errors.
  apply check_data_fields_ok in Hf as [_ Hall].
  split; [reflexivity|]. now exists datos.
Qed.

Lemma C6_valid_block_has_channels_witness :
  exists datos,
    dict_get "datos" (nth_block 1 ledger) = Some datos /\
    Forall (channel_ok datos) Verifier.required_data_fields.
Proof.
  apply (C6_valid_block_has_channels 1 (nth_block 1 ledger)
                                     (hash_of (nth_block 0 ledger)) []).
  vm_compute. reflexivity.
Defined.

(** C7: two blocks that agree on every field but [alerta], and both
    have that field, get the same verdict, the same error list and the
    same recomputed hash. *)
Theorem C7_verdict_ignores_alerta
        (index : Z) (b1 b2 : Verifier.block) (expected : string) :
  (forall k, k <> "alerta" -> dict_get k b1 = dict_get k b2) ->
  dict_mem "alerta" b1 = true ->
  dict_mem "alerta" b2 = true ->
  Verifier.verify_block index b1 expected = Verifier.verify_block index b2 expected
  /\ Verifier.calculate_hash b1 = Verifier.calculate_hash b2.
Proof.
  intros Hsame Ha1 Ha2.
  assert (Ht : dict_get "timestamp" b1 = dict_get "timestamp" b2)
    by (apply Hsame; discriminate).
  assert (Hd : dict_get "datos" b1 = dict_get "datos" b2)
    by (apply Hsame; discriminate).
  assert (Hp : dict_get "prev_hash" b1 = dict_get "prev_hash" b2)
    by (apply Hsame; discriminate).
  assert (Hh : dict_get "hash" b1 = dict_get "hash" b2)
    by (apply Hsame; discriminate).
  assert (Hc : Verifier.calculate_hash b1 = Verifier.calculate_hash b2).
  { unfold Verifier.calculate_hash, dict_item. now rewrite Ht, Hd, Hp. }
  split; [|exact Hc].
  unfold Verifier.verify_block, Verifier.missing_fields, Verifier.required_fields.
  cbn [flat_map]. rewrite Ha1, Ha2, Hc.
  unfold dict_item, dict_mem. now rewrite Ht, Hd, Hp, Hh.
Qed.

Lemma C7_verdict_ignores_alerta_witness :
  dict_get "alerta" (nth_block 1 ledger) = Some (PBool true) /\
  dict_get "alerta" flipped_alert_block = Some (PBool false) /\
  Verifier.verify_block 1 (nth_block 1 ledger) (hash_of (nth_block 0 ledger))
  = Verifier.verify_block 1 flipped_alert_block (hash_of (nth_block 0 ledger)).
Proof.
  split; [reflexivity|]. split; [reflexivity|].
  apply (C7_verdict_ignores_alerta 1 (nth_block 1 ledger) flipped_alert_block
                                   (hash_of (nth_block 0 ledger))).
  - intros k Hk. unfold flipped_alert_block, nth_block, ledger.
    cbn [nth dict_set dict_get String.eqb Ascii.eqb Bool.eqb].
    destruct (String.eqb_spec k "timestamp"); [reflexivity|].
    destruct (String.eqb_spec k "datos"); [reflexivity|].
    destruct (String.eqb_spec k "alerta"); [contradiction|].
    reflexivity.
  - reflexivity.
  - reflexivity.
Defined.

(** *** The claims on [verify_blockchain] *)




(* ================================================================== *)
(** ** The analyzer *)

Section WindowFacts.
Context {F : Type} `{FloatOps F}.
Variable strptime : string -> option Z.

Import BiometricAnalyzer.

Lemma recent_all (duration now : Z) (e : Z * F) (l : list (Z * F)) :
  recent duration now e = true ->
  Forall (by_time e) l ->
  filter (recent duration now) l = l.
Proof.
  unfold recent, by_time. intros He Hall.
  induction Hall as [|x l Hx _ IH]; [reflexivity|].
  cbn [filter]. rewrite IH.
  destruct (now - fst x <=? duration) eqn:E; [reflexivity|].
  apply Z.leb_le in He. apply Z.leb_gt in E. lia.
Qed.

Lemma evict_sorted (duration now : Z) (v : F) (l : list (Z * F)) :
  0 <= duration ->
  StronglySorted by_time l ->
  evict duration now (l ++ [(now, v)])
  = filter (recent duration now) l ++ [(now, v)].
Proof.
  intros Hd Hs.
  induction Hs as [|[t x] l Hs IH Hall]; cbn [app evict filter].
  - replace (now - now) with 0 by lia.
    destruct (duration <? 0) eqn:E; [apply Z.ltb_lt in E; lia|reflexivity].
  - unfold recent at 1. cbn [fst].
    destruct (duration <? now - t) eqn:E.
    + apply Z.ltb_lt in E.
      destruct (now - t <=? duration) eqn:E'; [apply Z.leb_le in E'; lia|].
      exact IH.
    + apply Z.ltb_ge in E.
      destruct (now - t <=? duration) eqn:E'; [|apply Z.leb_gt in E'; lia].
      now rewrite (recent_all duration now (t, x) l E' Hall).
Qed.

Lemma filter_sorted (f : Z * F -> bool) (l : list (Z * F)) :
  StronglySorted by_time l -> StronglySorted by_time (filter f l).
Proof.
  intros Hs. induction Hs as [|x l Hs IH Hall]; cbn [filter]; [constructor|].
  destruct (f x); [|exact IH].
  constructor; [exact IH|].
  apply Forall_forall. intros y Hy. apply filter_In in Hy as [Hy _].
  revert y Hy. now apply Forall_forall.
Qed.

Lemma recent_later (duration now now' : Z) (l : list (Z * F)) :
  now <= now' ->
  filter (recent duration now') (filter (recent duration now) l)
  = filter (recent duration now') l.
Proof.
  intros Hle. induction l as [|e l IH]; [reflexivity|].
  cbn [filter].
  destruct (recent duration now e) eqn:E1; cbn [filter];
    destruct (recent duration now' e) eqn:E2; rewrite ?IH; try reflexivity.
  unfold recent in E1, E2. apply Z.leb_le in E2. apply Z.leb_gt in E1. lia.
Qed.

Lemma last_cons {A : Type} (a d : A) (l : list A) :
  last (a :: l) d = last l a.
Proof.
  revert a d. induction l as [|b l IH]; intros a d; [reflexivity|].
  change (last (a :: b :: l) d) with (last (b :: l) d).
  now rewrite !IH.
Qed.

Lemma sorted_app_inv (pre : list (Z * F)) (e : Z * F) (es : list (Z * F)) :
  StronglySorted by_time (pre ++ e :: es) ->
  StronglySorted by_time pre /\ Forall (by_time e) es /\
  StronglySorted by_time (pre ++ [e]).
Proof.
  induction pre as [|x pre IH]; cbn [app]; intros Hs.
  - inversion Hs; subst. repeat split; [constructor|assumption|].
    constructor; constructor.
  - inversion Hs as [|? ? Hs' Hall]; subst.
    destruct (IH Hs') as [Hp [He Hpe]].
    repeat split; [|exact He|].
    + constructor; [exact Hp|].
      apply Forall_app in Hall. tauto.
    + constructor; [exact Hpe|].
      apply Forall_app in Hall as [Ha Hb]. apply Forall_app. split; [exact Ha|].
      constructor; [now inversion Hb|constructor].
Qed.

Lemma entry_of_signal (a a0 : t) (s : Sample) :
  signal_type a = signal_type a0 ->
  entry_of strptime a s = entry_of strptime a0 s.
Proof.
  intros E. unfold entry_of, extract_signal_value. now rewrite E.
Qed.

Lemma update_window_entry (a : t) (s : Sample) (e : Z * F) :
  entry_of strptime a s = Ok e ->
  update_window strptime a s
  = Ok (mk (signal_type a)
           (evict (window_duration a) (fst e) (window_data a ++ [e]))
           (window_duration a)).
Proof.
  unfold entry_of, update_window.
  destruct (key "timestamp" (s_timestamp s)) as [ts|]; cbn [bind]; [|discriminate].
  destruct (strptime ts) as [timestamp|]; [|discriminate].
  destruct (extract_signal_value a s) as [value|]; cbn [bind]; [|discriminate].
  intros E. now inversion E.
Qed.

Lemma feed_window (samples : list Sample) :
  forall (entries pre : list (Z * F)) (a : t) (now : Z),
    map (entry_of strptime a) samples = map Ok entries ->
    window_duration a = 30 ->
    window_data a = filter (recent 30 now) pre ->
    Forall (fun e => now <= fst e) entries ->
    StronglySorted by_time (pre ++ entries) ->
    exists a',
      feed strptime a samples = Ok a' /\
      signal_type a' = signal_type a /\
      window_duration a' = 30 /\
      window_data a'
      = filter (recent 30 (last (map fst entries) now)) (pre ++ entries).
Proof.
  unfold feed.
  induction samples as [|s samples IH];
    intros [|[ts v] entries] pre a now Hm Hd Hw Hnow Hs; try discriminate.
  - exists a. rewrite app_nil_r. cbn. auto.
  - cbn [map] in Hm. inversion Hm as [[He Hm']].
    cbn [fold_left bind]. rewrite (update_window_entry _ _ _ He).
    cbn [fst]. rewrite Hd, Hw.
    destruct (sorted_app_inv _ _ _ Hs) as [Hpre [Hafter Hpe]].
    rewrite evict_sorted by (lia || now apply filter_sorted).
    rewrite recent_later by now inversion Hnow.
    set (a1 := mk (signal_type a) (filter (recent 30 ts) pre ++ [(ts, v)]) 30).
    destruct (IH entries (pre ++ [(ts, v)]) a1 ts) as [a' [Hf [Hsig [Hdur Hwin]]]].
    + rewrite <- Hm'. apply map_ext. intros x. now apply entry_of_signal.
    + reflexivity.
    + subst a1. cbn [window_data]. rewrite filter_app. cbn [filter].
      unfold recent at 3. cbn [fst]. replace (ts - ts) with 0 by lia.
      reflexivity.
    + exact Hafter.
    + now rewrite <- app_assoc.
    + exists a'. split; [exact Hf|]. split; [exact Hsig|]. split; [exact Hdur|].
      rewrite Hwin, <- app_assoc. cbn [map fst app]. now rewrite last_cons.
Qed.
End WindowFacts.

(** C8: fed readings in the order of their timestamps, the window holds
    after the reading of timestamp [T] exactly the entries fed so far
    whose timestamp [t] has [T - t <= 30], in the order fed; [T] is the
    timestamp of the reading itself, not the clock. *)
Theorem C8_window_holds_recent_entries
        {F : Type} `{FloatOps F} (strptime : string -> option Z)
        (signal : string) (samples : list Sample) (entries : list (Z * F)) :
  map (BiometricAnalyzer.entry_of strptime (BiometricAnalyzer.init signal)) samples
  = map Ok entries ->
  Sorted BiometricAnalyzer.by_time entries ->
  exists a,
    BiometricAnalyzer.feed strptime (BiometricAnalyzer.init signal) samples = Ok a /\
    BiometricAnalyzer.window_data a
    = filter (fun e => last (map fst entries) 0 - fst e <=? 30) entries.
Proof.
  intros Hm Hs.
  apply Sorted_StronglySorted in Hs;
    [|intros x y z; unfold BiometricAnalyzer.by_time; lia].
  destruct entries as [|e es].
  - destruct samples; [|discriminate]. eexists. split; reflexivity.
  - destruct (feed_window strptime samples (e :: es) []
                          (BiometricAnalyzer.init signal) (fst e))
      as [a [Hf [_ [_ Hw]]]].
    + exact Hm.
    + reflexivity.
    + reflexivity.
    + inversion Hs as [|? ? _ Hall]; subst.
      constructor; [lia|exact Hall].
    + exact Hs.
    + exists a. split; [exact Hf|]. rewrite Hw. cbn [app map].
      now rewrite !last_cons.
Qed.

Lemma C8_window_holds_recent_entries_witness :
  exists a,
    BiometricAnalyzer.feed example_strptime analyzer0
                           [sample_t0; sample_t1; sample_t31] = Ok a /\
    BiometricAnalyzer.window_data a = [(1, 210%float); (31, 130%float)].
Proof.
  destruct (C8_window_holds_recent_entries
              example_strptime "frecuencia" [sample_t0; sample_t1; sample_t31]
              [(0, 100%float); (1, 210%float); (31, 130%float)])
    as [a [Hf Hw]].
  - vm_compute. reflexivity.
  - repeat constructor; unfold BiometricAnalyzer.by_time; cbn; lia.
  - exists a. split; [exact Hf|]. rewrite Hw. reflexivity.
Defined.

(** C9: [calculate_statistics] gives [(0, 0)] on an empty window; on a
    window of [n >= 1] values its first component is the arithmetic
    mean, and its second is the standard deviation with the divisor
    [n - 1] when [n > 1] and is 0 when [n = 1]. *)
Theorem C9_calculate_statistics
        {F : Type} `{FloatOps F} (self : BiometricAnalyzer.t) :
  let values := map snd (BiometricAnalyzer.window_data self) in
  let n := Z.of_nat (List.length values) in
  (n = 0 ->
   BiometricAnalyzer.calculate_statistics self = (of_int 0, of_int 0)) /\
  (1 <= n ->
   fst (BiometricAnalyzer.calculate_statistics self) = arithmetic_mean values) /\
  (n = 1 ->
   snd (BiometricAnalyzer.calculate_statistics self) = of_int 0) /\
  (1 < n ->
   snd (BiometricAnalyzer.calculate_statistics self) = unbiased_deviation values).
Proof.
  intros values n. subst values n.
  unfold BiometricAnalyzer.calculate_statistics, arithmetic_mean, unbiased_deviation.
  destruct (BiometricAnalyzer.window_data self) as [|e w].
  - cbn. repeat split; intros; try reflexivity; lia.
  - set (values := map snd (e :: w)).
    set (n := Z.of_nat (List.length values)).
    repeat split; intros Hn; cbn [fst snd]; try reflexivity.
    + subst n values. cbn in Hn. lia.
    + destruct (1 <? n) eqn:E; [apply Z.ltb_lt in E; lia|reflexivity].
    + destruct (1 <? n) eqn:E; [reflexivity|apply Z.ltb_ge in E; lia].
Qed.

Lemma C9_calculate_statistics_witness :
  BiometricAnalyzer.feed example_strptime analyzer0
                         [sample_t0; reading "2025-01-01T00:00:01" 100 120 80 98;
                          sample_t2]
  = Ok steady_window /\
  BiometricAnalyzer.calculate_statistics steady_window = (100%float, 0%float).
Proof.
  split; [vm_compute; reflexivity|].
  destruct (C9_calculate_statistics steady_window) as [_ [Hmean [_ Hdev]]].
  rewrite (surjective_pairing (BiometricAnalyzer.calculate_statistics steady_window)).
  rewrite Hmean, Hdev; [|cbn; lia|cbn; lia].
  vm_compute. reflexivity.
Defined.

(* ================================================================== *)
(** ** The generator *)

Section GeneratorFacts.
Variable Sink : Type.
Variable send : Sink -> Sample -> option Sink.
Variable close : Sink -> Sink.
Variable generate_sample : nat -> Sample.

Import BiometricGenerator.

Lemma emit_app (r1 r2 : list nat) (pipes : list Sink) :
  emit Sink send generate_sample (r1 ++ r2) pipes
  = let (ps, ok) := emit Sink send generate_sample r1 pipes in
    if ok then emit Sink send generate_sample r2 ps else (ps, false).
Proof.
  revert pipes. induction r1 as [|i r1 IH]; intros pipes; cbn [app emit].
  - reflexivity.
  - destruct (send_all Sink send (generate_sample i) pipes) as [ps ok].
    destruct ok; [apply IH|reflexivity].
Qed.

(** A broadcast that fails stops at the first sink that refuses: the
    sinks before it have the reading, that sink and the ones after it
    are as they were. *)
Lemma send_all_fails (sample : Sample) (pipes pipes' : list Sink) :
  send_all Sink send sample pipes = (pipes', false) ->
  exists before before' p after,
    pipes = before ++ p :: after /\
    pipes' = before' ++ p :: after /\
    Forall2 (fun x y => send x sample = Some y) before before' /\
    send p sample = None.
Proof.
  revert pipes'. induction pipes as [|p ps IH]; intros pipes'; cbn [send_all].
  - discriminate.
  - destruct (send p sample) as [p'|] eqn:Hs.
    + destruct (send_all Sink send sample ps) as [ps' ok] eqn:Hr.
      intros E. inversion E; subst.
      destruct (IH ps' eq_refl) as [b [b' [q [a [H1 [H2 [H3 H4]]]]]]].
      exists (p :: b), (p' :: b'), q, a. subst.
      repeat split; [|exact H4]. now constructor.
    + intros E. inversion E; subst.
      exists [], [], p, ps. repeat split; [constructor|exact Hs].
Qed.

Lemma seq_split (n i : nat) :
  (i < n)%nat -> seq 0 n = seq 0 i ++ i :: seq (S i) (n - S i).
Proof.
  intros Hi. replace n with (i + S (n - S i))%nat at 1 by lia.
  now rewrite seq_app.
Qed.
End GeneratorFacts.

(** C10, as stated, fails.  With three sinks of which the second has
    lost its consumer, the run ends at the first reading: the first
    sink has received that one reading, the third none, although their
    consumers live, and none of the 59 other readings is sent. *)
Lemma C10_one_dead_sink_stops_the_run :
  let out :=
    BiometricGenerator.run Pipe pipe_send pipe_close example_sample
                           BiometricGenerator.sample_count
                           [open_pipe; dead_pipe; open_pipe] in
  map (fun p => List.length (received p)) (fst out) = [1%nat; 0%nat; 0%nat] /\
  map consumer_alive (fst out) = [true; false; true] /\
  map closed (fst out) = [true; true; true] /\
  snd out = true /\
  BiometricGenerator.sample_count = 60%nat.
Proof. vm_compute. repeat split; reflexivity. Qed.

(** C10, amended: if a send to one sink fails while reading [i] is
    broadcast, the error is logged and the emission ends there for
    every sink: the sinks before the failing one have reading [i], the
    failing sink and those after it do not, no later reading is sent to
    any sink, and every sink is closed. *)
Theorem C10_failed_send_ends_emission
        (Sink : Type) (send : Sink -> Sample -> option Sink)
        (close : Sink -> Sink) (generate_sample : nat -> Sample)
        (sample_count i : nat) (pipes ps ps' : list Sink) :
  (i < sample_count)%nat ->
  BiometricGenerator.emit Sink send generate_sample (seq 0 i) pipes = (ps, true) ->
  BiometricGenerator.send_all Sink send (generate_sample i) ps = (ps', false) ->
  BiometricGenerator.run Sink send close generate_sample sample_count pipes
  = (map close ps', true) /\
  exists before before' p after,
    ps = before ++ p :: after /\
    ps' = before' ++ p :: after /\
    Forall2 (fun x y => send x (generate_sample i) = Some y) before before' /\
    send p (generate_sample i) = None.
Proof.
  intros Hi He Hs. split.
  - unfold BiometricGenerator.run.
    rewrite (seq_split sample_count i Hi), emit_app, He.
    cbn [BiometricGenerator.emit]. rewrite Hs. reflexivity.
  - now apply send_all_fails.
Qed.

Lemma C10_failed_send_ends_emission_witness :
  map (fun p => List.length (received p))
      (fst (BiometricGenerator.run Pipe pipe_send pipe_close
                                   (fun i => example_sample (2 + i))
                                   BiometricGenerator.sample_count
                                   pipes_after_two))
  = [3%nat; 2%nat; 2%nat].
Proof.
  destruct (C10_failed_send_ends_emission
              Pipe pipe_send pipe_close (fun i => example_sample (2 + i))
              BiometricGenerator.sample_count 0 pipes_after_two pipes_after_two
              [ mkPipe true [example_sample 0; example_sample 1; example_sample 2]
                       false;
                mkPipe false [example_sample 0; example_sample 1] false;
                mkPipe true [example_sample 0; example_sample 1] false ])
    as [Hrun _].
  - unfold BiometricGenerator.sample_count. lia.
  - reflexivity.
  - reflexivity.
  - rewrite Hrun. reflexivity.
Defined.

(* ================================================================== *)
(** * Further properties of the verifier *)

(** Everything that a verdict of validity on one block rests on. *)
Lemma verify_block_valid_inv
      (index : Z) (b : Verifier.block) (expected : string)
      (errors : list string) :
  Verifier.verify_block index b expected = Ok (true, errors) ->
  errors = [] /\
  dict_get "prev_hash" b = Some (PStr expected) /\
  (exists h, dict_get "hash" b = Some (PStr h) /\ Verifier.calculate_hash b = Ok h) /\
  (exists datos,
      dict_get "datos" b = Some datos /\
      Forall (channel_ok datos) Verifier.required_data_fields).
Proof.
  intros Hv.
  destruct (valid_block_stored_hash _ _ _ _ Hv) as [h [Hh Hc]].
  revert Hv. unfold Verifier.verify_block.
  destruct (Verifier.missing_fields b) eqn:Hm; [|discriminate].
  apply missing_fields_nil in Hm.
  assert (Hd : dict_mem "datos" b = true).
  { unfold Verifier.required_fields in Hm.
    now inversion Hm as [|? ? _ Hm1]; inversion Hm1. }
  unfold dict_item at 1.
  destruct (dict_get "prev_hash" b) as [prev|] eqn:Hp; cbn [bind]; [|discriminate].
  rewrite Hc. cbn [bind]. unfold dict_item at 1. rewrite Hh. cbn [bind].
  rewrite Hd. unfold dict_item at 1.
  destruct (dict_get "datos" b) as [datos|] eqn:Hg; cbn [bind]; [|discriminate].
  match goal with
  | |- context [fold_left ?f ?l ?a] => destruct (fold_left f l a) eqn:Hf
  end; cbn [bind]; [|discriminate].
  intros Hv. inversion Hv as [[Hlen He]]. subst.
  apply length_zero_nil in Hlen. subst errors.
  apply check_data_fields_ok in Hf as [Hnil Hall].
  split; [reflexivity|]. split.
  - destruct (Verifier.ne_str (PStr h) h) eqn:Hne.
    { now apply snoc_not_nil in Hnil. }
    destruct (Verifier.ne_str prev expected) eqn:Hpe.
    { now apply snoc_not_nil in Hnil. }
    destruct prev; try discriminate. cbn in Hpe.
    apply negb_false_iff, String.eqb_eq in Hpe. now subst.
  - split; [now exists h|now exists datos].
Qed.

Lemma step_valid_inv (st st' : Verifier.scan) (i : Z) (b : Verifier.block) :
  Verifier.step st i b = Ok st' ->
  Verifier.is_valid st' = true ->
  Verifier.is_valid st = true /\
  Verifier.corrupted_blocks st' = Verifier.corrupted_blocks st /\
  exists errors h,
    Verifier.verify_block i b (Verifier.expected_prev_hash st) = Ok (true, errors) /\
    dict_get "hash" b = Some (PStr h) /\
    Verifier.expected_prev_hash st' = h.
Proof.
  unfold Verifier.step.
  destruct (Verifier.verify_block i b (Verifier.expected_prev_hash st))
    as [[valid errors]|] eqn:Hv; cbn [bind]; [|discriminate].
  destruct valid.
  - destruct (valid_block_stored_hash _ _ _ _ Hv) as [h [Hh _]].
    unfold dict_item. rewrite Hh. cbn [bind Verifier.sliceable].
    intros E Hval. inversion E; subst. cbn in *.
    split; [exact Hval|]. split; [reflexivity|]. now exists errors, h.
  - destruct (Verifier.sliceable _); cbn [bind]; [|discriminate].
    intros E Hval. inversion E; subst. discriminate.
Qed.

Lemma step_invalid_stays (st st' : Verifier.scan) (i : Z) (b : Verifier.block) :
  Verifier.step st i b = Ok st' ->
  Verifier.is_valid st = false -> Verifier.is_valid st' = false.
Proof.
  intros Hs Hf. destruct (Verifier.is_valid st') eqn:E; [|reflexivity].
  destruct (step_valid_inv _ _ _ _ Hs E) as [Hv _]. congruence.
Qed.

Lemma scan_valid_inv (blocks : list Verifier.block) :
  forall (st st' : Verifier.scan) (i : Z),
    Verifier.scan_from st i blocks = Ok st' ->
    Verifier.is_valid st' = true ->
    Verifier.is_valid st = true /\
    Verifier.corrupted_blocks st' = Verifier.corrupted_blocks st /\
    consistent (Verifier.expected_prev_hash st) blocks.
Proof.
  induction blocks as [|b blocks IH]; intros st st' i; cbn [Verifier.scan_from].
  - intros E Hv. inversion E; subst. now repeat split.
  - destruct (Verifier.step st i b) as [st1|] eqn:Hs; cbn [bind]; [|discriminate].
    intros Hscan Hv.
    destruct (IH _ _ _ Hscan Hv) as [Hv1 [Hc1 Hcons]].
    destruct (step_valid_inv _ _ _ _ Hs Hv1) as [Hv0 [Hc0 [errors [h [Hvb [Hh He]]]]]].
    split; [exact Hv0|]. split; [congruence|].
    destruct (verify_block_valid_inv _ _ _ _ Hvb) as [_ [Hp [[h' [Hh' Hcalc]] Hdatos]]].
    cbn [consistent]. exists h. rewrite Hh in Hh'. inversion Hh'; subst h'.
    repeat split; try assumption. now rewrite <- He.
Qed.

Lemma verified_is_consistent
      (blockchain : list Verifier.block) (corrupted : list Verifier.Corrupted) :
  Verifier.verify_blockchain blockchain = Ok (true, corrupted) ->
  consistent "" blockchain.
Proof.
  unfold Verifier.verify_blockchain.
  destruct blockchain as [|b blocks]; [discriminate|].
  destruct (Verifier.scan_from (Verifier.mkScan true "" []) 0 (b :: blocks))
    as [st|] eqn:Hs; cbn [bind]; [|discriminate].
  intros E. inversion E as [[Hv Hc]].
  now destruct (scan_valid_inv _ _ _ _ Hs Hv) as [_ [_ Hcons]].
Qed.

(** X1: soundness of the verdict.  When [verify_blockchain] answers
    that the chain is valid, the ledger is not empty, no block is
    recorded as corrupted, the first block has the empty [prev_hash],
    every block's [prev_hash] is the stored hash of the block before
    it, every stored hash is the one recomputed from the block, and
    every [datos] holds the three channels with [media] and [desv]. *)
Theorem verdict_true_is_sound
        (blockchain : list Verifier.block) (corrupted : list Verifier.Corrupted) :
  Verifier.verify_blockchain blockchain = Ok (true, corrupted) ->
  blockchain <> [] /\ corrupted = [] /\ consistent "" blockchain.
Proof.
  intros Hv. split; [|split].
  - intros ->. discriminate.
  - revert Hv. unfold Verifier.verify_blockchain.
    destruct blockchain as [|b blocks]; [discriminate|].
    destruct (Verifier.scan_from (Verifier.mkScan true "" []) 0 (b :: blocks))
      as [st|] eqn:Hs; cbn [bind]; [|discriminate].
    intros E. inversion E as [[Hv Hc]].
    now destruct (scan_valid_inv _ _ _ _ Hs Hv) as [_ [Hc' _]].
  - exact (verified_is_consistent _ _ Hv).
Qed.

Lemma verdict_true_is_sound_witness :
  consistent "" ledger.
Proof.
  apply (verdict_true_is_sound ledger []).
  vm_compute. reflexivity.
Defined.


Lemma consistent_app (pre : list Verifier.block) (b : Verifier.block)
      (post : list Verifier.block) (expected : string) :
  consistent expected (pre ++ b :: post) ->
  exists e, consistent e (b :: post) /\
            (pre = [] -> e = expected) /\
            (forall pre' a, pre = pre' ++ [a] -> dict_get "hash" a = Some (PStr e)).
Proof.
  revert expected. induction pre as [|x pre IH]; intros expected Hc.
  - exists expected. split; [exact Hc|]. split; [reflexivity|].
    intros [|? ?] a E; discriminate.
  - cbn [app consistent] in Hc.
    destruct Hc as [h [_ [Hh [_ [_ Hrest]]]]].
    destruct (IH _ Hrest) as [e [He [Hnil Hlast]]].
    exists e. split; [exact He|]. split; [discriminate|].
    intros pre' a E. destruct pre' as [|y pre']; cbn [app] in E;
      injection E as Hx Hpre.
    + subst a. rewrite (Hnil Hpre). exact Hh.
    + now apply (Hlast pre').
Qed.

(** X2: a wrong stored hash or a broken link anywhere in the ledger
    keeps [verify_blockchain] from answering that the chain is valid:
    it answers false, or stops on an exception. *)
Theorem mismatch_is_never_validated
        (pre post : list Verifier.block) (b : Verifier.block)
        (corrupted : list Verifier.Corrupted) :
  (forall h, dict_get "hash" b = Some (PStr h) -> Verifier.calculate_hash b <> Ok h) \/
  (exists pre' a, pre = pre' ++ [a] /\ dict_get "prev_hash" b <> dict_get "hash" a) \/
  (pre = [] /\ dict_get "prev_hash" b <> Some (PStr "")) ->
  Verifier.verify_blockchain (pre ++ b :: post) <> Ok (true, corrupted).
Proof.
  intros Hbad Hv.
  apply verified_is_consistent in Hv as Hc.
  apply consistent_app in Hc as [e [Hb [Hnil Hlast]]].
  cbn [consistent] in Hb. destruct Hb as [h [Hp [Hh [Hcalc _]]]].
  destruct Hbad as [Hbad | [[pre' [a [E Hbad]]] | [E Hbad]]].
  - exact (Hbad h Hh Hcalc).
  - apply Hbad. rewrite Hp. symmetry. now apply (Hlast pre').
  - apply Hbad. rewrite Hp. now rewrite (Hnil E).
Qed.

Lemma mismatch_is_never_validated_witness :
  Verifier.verify_blockchain tampered_ledger <> Ok (true, []).
Proof.
  apply (mismatch_is_never_validated
           [nth_block 0 ledger]
           [nth_block 2 ledger; nth_block 3 ledger]
           (dict_set "hash" (PStr "tampered") (nth_block 1 ledger)) []).
  left. intros h Hh. vm_compute in Hh. inversion Hh; subst.
  vm_compute. discriminate.
Defined.

Lemma verify_block_invalid_errors
      (index : Z) (b : Verifier.block) (expected : string)
      (errors : list string) :
  Verifier.verify_block index b expected = Ok (false, errors) -> errors <> [].
Proof.
  unfold Verifier.verify_block.
  destruct (Verifier.missing_fields b) eqn:Hm.
  - destruct (dict_item "prev_hash" b); cbn [bind]; [|discriminate].
    destruct (Verifier.calculate_hash b); cbn [bind]; [|discriminate].
    destruct (dict_item "hash" b); cbn [bind]; [|discriminate].
    match goal with
    | |- context [bind ?m _] => destruct m as [errs|]
    end; cbn [bind]; [|discriminate].
    intros E. inversion E as [[Hlen He]]. subst.
    intros ->. discriminate.
  - intros E. inversion E. discriminate.
Qed.

Lemma step_outcome (st st' : Verifier.scan) (i : Z) (b : Verifier.block) :
  Verifier.step st i b = Ok st' ->
  (Verifier.is_valid st' = Verifier.is_valid st /\
   Verifier.corrupted_blocks st' = Verifier.corrupted_blocks st) \/
  (Verifier.is_valid st' = false /\
   exists x, Verifier.corrupted_blocks st' = Verifier.corrupted_blocks st ++ [x] /\
             Verifier.c_index x = i /\ Verifier.c_errors x <> []).
Proof.
  unfold Verifier.step.
  destruct (Verifier.verify_block i b (Verifier.expected_prev_hash st))
    as [[valid errors]|] eqn:Hv; cbn [bind]; [|discriminate].
  destruct valid.
  - destruct (dict_item "hash" b); cbn [bind]; [|discriminate].
    destruct (Verifier.sliceable _); cbn [bind]; [|discriminate].
    intros E. inversion E; subst. left. split; reflexivity.
  - destruct (Verifier.sliceable _); cbn [bind]; [|discriminate].
    intros E. inversion E; subst. right. split; [reflexivity|].
    eexists. split; [reflexivity|]. split; [reflexivity|].
    now apply verify_block_invalid_errors in Hv.
Qed.

Lemma scan_report (blocks : list Verifier.block) :
  forall (st st' : Verifier.scan) (i : Z),
    Verifier.scan_from st i blocks = Ok st' ->
    exists added,
      Verifier.corrupted_blocks st' = Verifier.corrupted_blocks st ++ added /\
      (Verifier.is_valid st' = true <-> Verifier.is_valid st = true /\ added = []) /\
      StronglySorted Z.lt (map Verifier.c_index added) /\
      Forall (fun k => i <= k < i + Z.of_nat (List.length blocks))
             (map Verifier.c_index added) /\
      Forall (fun x => Verifier.c_errors x <> []) added.
Proof.
  induction blocks as [|b blocks IH]; intros st st' i; cbn [Verifier.scan_from].
  - intros E. inversion E; subst. exists []. rewrite app_nil_r.
    repeat split; try constructor; tauto.
  - destruct (Verifier.step st i b) as [st1|] eqn:Hs; cbn [bind]; [|discriminate].
    intros Hscan.
    destruct (IH _ _ _ Hscan) as [added [Hc [Hv [Hsorted [Hrange Herr]]]]].
    assert (Hrange' : Forall (fun k => i <= k < i + Z.of_nat (List.length (b :: blocks)))
                             (map Verifier.c_index added)).
    { revert Hrange. apply Forall_impl. intros k. cbn [List.length]. lia. }
    destruct (step_outcome _ _ _ _ Hs) as [[Hv1 Hc1] | [Hv1 [x [Hc1 [Hi Hx]]]]].
    + exists added. rewrite Hc, Hc1, Hv, Hv1. repeat split; tauto.
    + exists (x :: added). rewrite Hc, Hc1, <- app_assoc. cbn [app map].
      split; [reflexivity|]. split.
      * rewrite Hv, Hv1. split; [intros [? _]; discriminate|intros [_ ?]; discriminate].
      * split; [|split].
        -- constructor; [exact Hsorted|]. rewrite Hi.
           revert Hrange. apply Forall_impl. intros k. lia.
        -- constructor; [|exact Hrange']. rewrite Hi. cbn [List.length]. lia.
        -- now constructor.
Qed.

(** X3: on a ledger that is not empty, the verdict of
    [verify_blockchain] is true exactly when no block is recorded as
    corrupted; the recorded indices are increasing positions of the
    ledger, and every record carries at least one error. *)
Theorem corrupted_blocks_account_for_verdict
        (blockchain : list Verifier.block) (verdict : bool)
        (corrupted : list Verifier.Corrupted) :
  blockchain <> [] ->
  Verifier.verify_blockchain blockchain = Ok (verdict, corrupted) ->
  (verdict = true <-> corrupted = []) /\
  StronglySorted Z.lt (map Verifier.c_index corrupted) /\
  Forall (fun k => 0 <= k < Z.of_nat (List.length blockchain))
         (map Verifier.c_index corrupted) /\
  Forall (fun x => Verifier.c_errors x <> []) corrupted.
Proof.
  unfold Verifier.verify_blockchain.
  destruct blockchain as [|b blocks]; [contradiction|]. intros _.
  destruct (Verifier.scan_from (Verifier.mkScan true "" []) 0 (b :: blocks))
    as [st|] eqn:Hs; cbn [bind]; [|discriminate].
  intros E. inversion E; subst.
  destruct (scan_report _ _ _ _ Hs) as [added [Hc [Hv [Hsorted [Hrange Herr]]]]].
  cbn [Verifier.corrupted_blocks Verifier.is_valid app] in Hc, Hv.
  rewrite Hc. repeat split; try assumption; try tauto.
Qed.

Lemma tampered_ledger_report :
  Verifier.verify_blockchain tampered_ledger = Ok (false, tampered_corrupted).
Proof. vm_compute. reflexivity. Qed.

Lemma corrupted_blocks_account_for_verdict_witness :
  Verifier.verify_blockchain tampered_ledger = Ok (false, tampered_corrupted) /\
  tampered_corrupted <> [] /\
  StronglySorted Z.lt (map Verifier.c_index tampered_corrupted).
Proof.
  destruct (corrupted_blocks_account_for_verdict
              tampered_ledger false tampered_corrupted) as [Hv [Hs _]].
  - discriminate.
  - exact tampered_ledger_report.
  - split; [exact tampered_ledger_report|]. split; [|exact Hs].
    intros Hc. apply Hv in Hc. discriminate.
Defined.


Lemma missing_fields_filter (b : Verifier.block) :
  Verifier.missing_fields b
  = map missing_message
        (filter (fun field => negb (dict_mem field b)) Verifier.required_fields).
Proof.
  unfold Verifier.missing_fields, Verifier.required_fields, missing_message.
  cbn [flat_map filter].
  destruct (dict_mem "timestamp" b), (dict_mem "datos" b), (dict_mem "alerta" b),
    (dict_mem "prev_hash" b), (dict_mem "hash" b); reflexivity.
Qed.

(** X4: a block that lacks required fields never stops the scan with
    an exception: [verify_block] answers false with one message per
    missing field, in the order of [required_fields], and checks
    nothing else of the block. *)
Theorem missing_fields_are_reported
        (index : Z) (b : Verifier.block) (expected : string) :
  forallb (fun field => dict_mem field b) Verifier.required_fields = false ->
  Verifier.verify_block index b expected
  = Ok (false,
        map missing_message
            (filter (fun field => negb (dict_mem field b)) Verifier.required_fields))
  /\ filter (fun field => negb (dict_mem field b)) Verifier.required_fields <> [].
Proof.
  intros Hf. unfold Verifier.verify_block. rewrite missing_fields_filter.
  assert (Hne : filter (fun field => negb (dict_mem field b))
                       Verifier.required_fields <> []).
  { revert Hf. unfold Verifier.required_fields. cbn [forallb filter].
    destruct (dict_mem "timestamp" b), (dict_mem "datos" b), (dict_mem "alerta" b),
      (dict_mem "prev_hash" b), (dict_mem "hash" b); cbn; discriminate. }
  split; [|exact Hne].
  destruct (filter _ _) eqn:E; [contradiction|reflexivity].
Qed.

Lemma missing_fields_are_reported_witness :
  Verifier.verify_block 0 [("timestamp", PStr "2025-01-01T00:00:00"); ("hash", PInt 7)] ""
  = Ok (false, [ "Campo requerido 'datos' faltante";
                 "Campo requerido 'alerta' faltante";
                 "Campo requerido 'prev_hash' faltante" ]).
Proof.
  apply (missing_fields_are_reported
           0 [("timestamp", PStr "2025-01-01T00:00:00"); ("hash", PInt 7)] "").
  reflexivity.
Defined.

Lemma scan_from_app (l1 l2 : list Verifier.block) :
  forall (st : Verifier.scan) (i : Z),
    Verifier.scan_from st i (l1 ++ l2)
    = (st1 <- Verifier.scan_from st i l1 ;;
       Verifier.scan_from st1 (i + Z.of_nat (List.length l1)) l2).
Proof.
  induction l1 as [|b l1 IH]; intros st i; cbn [app Verifier.scan_from bind].
  - cbn. now rewrite Z.add_0_r.
  - destruct (Verifier.step st i b) as [st1|]; cbn [bind]; [|reflexivity].
    rewrite IH. cbn [List.length].
    replace (i + 1 + Z.of_nat (List.length l1))
      with (i + Z.of_nat (S (List.length l1))) by lia.
    reflexivity.
Qed.

(** X5: a block that has every required field but whose [timestamp] or
    [prev_hash] is no string makes [calculate_hash] raise [TypeError];
    [verify_block] does not catch it, and [verify_blockchain] ends
    with that exception, whatever blocks follow, giving no verdict. *)
Theorem non_string_field_aborts_verification
        (pre post : list Verifier.block) (b : Verifier.block)
        (st : Verifier.scan) (timestamp prev : pyval) :
  Verifier.scan_from (Verifier.mkScan true "" []) 0 pre = Ok st ->
  dict_get "timestamp" b = Some timestamp ->
  dict_get "prev_hash" b = Some prev ->
  dict_mem "datos" b = true ->
  dict_mem "alerta" b = true ->
  dict_mem "hash" b = true ->
  is_string timestamp && is_string prev = false ->
  (forall index expected,
      Verifier.verify_block index b expected = Raise TypeError) /\
  Verifier.verify_blockchain (pre ++ b :: post) = Raise TypeError.
Proof.
  intros Hpre Ht Hp Hd Ha Hh Hs.
  assert (Hvb : forall index expected,
             Verifier.verify_block index b expected = Raise TypeError).
  { intros index expected.
    unfold Verifier.verify_block, Verifier.missing_fields, Verifier.required_fields.
    cbn [flat_map]. rewrite Hd, Ha, Hh.
    unfold dict_mem at 1 2. rewrite Ht, Hp. cbn [app].
    unfold dict_item at 1. rewrite Hp. cbn [bind].
    unfold Verifier.calculate_hash. rewrite Hp. cbn [LedgerBuilder.get].
    unfold dict_mem in Hd. unfold dict_item at 1.
    destruct (dict_get "datos" b); [|discriminate]. cbn [bind].
    unfold dict_item at 1. rewrite Ht. cbn [bind].
    destruct prev; cbn [Verifier.str_add bind]; try reflexivity.
    destruct timestamp; cbn [Verifier.str_add bind]; try reflexivity.
    discriminate. }
  split; [exact Hvb|].
  unfold Verifier.verify_blockchain.
  destruct (pre ++ b :: post) eqn:E; [now destruct pre|]. rewrite <- E.
  rewrite scan_from_app, Hpre. cbn [bind Verifier.scan_from].
  unfold Verifier.step. rewrite Hvb. reflexivity.
Qed.

Lemma non_string_field_aborts_verification_witness :
  Verifier.verify_blockchain
    [ nth_block 0 ledger;
      dict_set "timestamp" (PInt 1735689601) (nth_block 1 ledger);
      nth_block 2 ledger ]
  = Raise TypeError.
Proof.
  apply (non_string_field_aborts_verification
           [nth_block 0 ledger] [nth_block 2 ledger]
           (dict_set "timestamp" (PInt 1735689601) (nth_block 1 ledger))
           (Verifier.mkScan true hash0 [])
           (PInt 1735689601)
           (PStr hash0)).
  - vm_compute. reflexivity.
  - reflexivity.
  - reflexivity.
  - reflexivity.
  - reflexivity.
  - reflexivity.
  - reflexivity.
Defined.


(* ================================================================== *)
(** * Further properties of the ledger builder *)

(** ** Dictionaries *)

Section DictFacts.
Context {V : Type}.

Lemma dict_get_set_same (k : string) (v : V) (d : list (string * V)) :
  dict_get k (dict_set k v d) = Some v.
Proof.
  induction d as [|[k' v'] d IH]; cbn [dict_set dict_get].
  - now rewrite String.eqb_refl.
  - destruct (String.eqb k k') eqn:E; cbn [dict_get]; rewrite ?String.eqb_refl, ?E;
      [reflexivity|exact IH].
Qed.

Lemma dict_get_set_other (k k' : string) (v : V) (d : list (string * V)) :
  k' <> k -> dict_get k' (dict_set k v d) = dict_get k' d.
Proof.
  intros Hne. induction d as [|[k0 v0] d IH]; cbn [dict_set dict_get].
  - destruct (String.eqb_spec k' k); [contradiction|reflexivity].
  - destruct (String.eqb_spec k k0) as [->|]; cbn [dict_get].
    + destruct (String.eqb_spec k' k0); [contradiction|reflexivity].
    + now rewrite IH.
Qed.

Lemma dict_mem_In (k : string) (d : list (string * V)) :
  dict_mem k d = true <-> In k (map fst d).
Proof.
  unfold dict_mem. induction d as [|[k' v'] d IH]; cbn [dict_get map fst In].
  - split; [discriminate|contradiction].
  - destruct (String.eqb_spec k k') as [->|Hne].
    + split; auto.
    + rewrite IH. split; [auto|]. intros [E|H]; [congruence|exact H].
Qed.

Lemma dict_set_fresh (k : string) (v : V) (d : list (string * V)) :
  dict_mem k d = false -> dict_set k v d = d ++ [(k, v)].
Proof.
  unfold dict_mem. induction d as [|[k' v'] d IH]; cbn [dict_get dict_set app].
  - reflexivity.
  - destruct (String.eqb k k'); [discriminate|]. intros H. now rewrite IH.
Qed.

Lemma dict_set_keys (k : string) (v : V) (d : list (string * V)) :
  map fst (dict_set k v d)
  = if dict_mem k d then map fst d else map fst d ++ [k].
Proof.
  unfold dict_mem. induction d as [|[k' v'] d IH]; cbn [dict_get dict_set map fst app].
  - reflexivity.
  - destruct (String.eqb_spec k k') as [->|Hne]; cbn [map fst].
    + reflexivity.
    + rewrite IH. now destruct (dict_get k d).
Qed.

Lemma dict_set_NoDup (k : string) (v : V) (d : list (string * V)) :
  NoDup (map fst d) -> NoDup (map fst (dict_set k v d)).
Proof.
  intros Hn. rewrite dict_set_keys.
  destruct (dict_mem k d) eqn:E; [exact Hn|].
  apply NoDup_app_remove_l with (l := []). cbn [app].
  apply NoDup_rev in Hn. rewrite <- (rev_involutive (map fst d ++ [k])).
  apply NoDup_rev. rewrite rev_unit. constructor; [|exact Hn].
  rewrite <- in_rev. intros Hin. apply dict_mem_In in Hin. congruence.
Qed.

Lemma dict_set_Forall (P : string * V -> Prop) (k : string) (v : V)
      (d : list (string * V)) :
  Forall P d -> P (k, v) -> Forall P (dict_set k v d).
Proof.
  intros Hd Hk. induction Hd as [|[k' v'] d Hx Hd IH]; cbn [dict_set].
  - now constructor.
  - destruct (String.eqb k k'); constructor; assumption.
Qed.

Lemma dict_del_Forall (P : string * V -> Prop) (k : string) (d : list (string * V)) :
  Forall P d -> Forall P (dict_del k d).
Proof.
  intros Hd. induction Hd as [|[k' v'] d Hx Hd IH]; cbn [dict_del].
  - constructor.
  - destruct (String.eqb k k'); [exact Hd|now constructor].
Qed.

Lemma dict_get_Forall (P : string * V -> Prop) (k : string) (v : V)
      (d : list (string * V)) :
  Forall P d -> dict_get k d = Some v -> P (k, v).
Proof.
  intros Hd. induction Hd as [|[k' v'] d Hx Hd IH]; cbn [dict_get].
  - discriminate.
  - destruct (String.eqb_spec k k') as [->|]; [|exact IH].
    intros E. now inversion E; subst.
Qed.

Lemma dict_get_map {W : Type} (g : V -> W) (k : string) (d : list (string * V)) :
  dict_get k (map (fun kv => (fst kv, g (snd kv))) d)
  = option_map g (dict_get k d).
Proof.
  induction d as [|[k' v'] d IH]; cbn [map dict_get fst snd]; [reflexivity|].
  now destruct (String.eqb k k').
Qed.
End DictFacts.


(** ** Ticks, blocks and the verifier *)

Lemma clean_from (tick : list (string * LedgerBuilder.Entry)) :
  forall acc : list (string * LedgerBuilder.Stats),
    NoDup (map fst acc ++ map fst tick) ->
    fold_left
      (fun clean_results kv =>
         dict_set (fst kv)
                  (LedgerBuilder.mkStats (LedgerBuilder.e_media (snd kv))
                                         (LedgerBuilder.e_desv (snd kv)))
                  clean_results)
      tick acc
    = acc ++ map stats_of tick.
Proof.
  induction tick as [|[k e] tick IH]; intros acc Hn; cbn [fold_left map].
  - now rewrite app_nil_r.
  - cbn [fst snd map] in *. rewrite dict_set_fresh.
    + rewrite IH.
      * now rewrite <- app_assoc.
      * rewrite map_app. cbn [map fst]. now rewrite <- app_assoc.
    + destruct (dict_mem k acc) eqn:E; [|reflexivity].
      apply dict_mem_In in E. apply NoDup_remove_2 in Hn.
      exfalso. apply Hn. apply in_or_app. now left.
Qed.

Lemma clean_NoDup (tick : list (string * LedgerBuilder.Entry)) :
  NoDup (map fst tick) -> LedgerBuilder.clean tick = map stats_of tick.
Proof.
  intros Hn. unfold LedgerBuilder.clean. now rewrite clean_from.
Qed.

Lemma three_channels (keys : list string) :
  NoDup keys ->
  Forall (fun k => In k Verifier.required_data_fields) keys ->
  List.length keys = 3%nat ->
  Forall (fun field => In field keys) Verifier.required_data_fields.
Proof.
  intros Hn Hall Hlen. apply Forall_forall.
  apply (NoDup_length_incl Hn).
  - rewrite Hlen. cbn. lia.
  - intros k. revert k. now apply Forall_forall.
Qed.

Lemma check_data_field_pass (d : list (string * LedgerBuilder.Stats))
      (errors : list string) (field : string) :
  dict_mem field d = true ->
  Verifier.check_data_field (LedgerBuilder.datos_to_py d) (Ok errors) field
  = Ok errors.
Proof.
  intros Hm. unfold Verifier.check_data_field, LedgerBuilder.datos_to_py.
  cbn [bind Verifier.py_contains Verifier.py_getitem].
  unfold dict_mem, dict_item in *. rewrite dict_get_map.
  destruct (dict_get field d); [|discriminate]. reflexivity.
Qed.

Lemma good_block_verifies (index : Z) (b : LedgerBuilder.Block) (expected : string) :
  good_block b ->
  LedgerBuilder.prev_hash (LedgerBuilder.data b) = expected ->
  Verifier.verify_block index (LedgerBuilder.block_to_py b) expected = Ok (true, []).
Proof.
  intros [Hh [Hd _]] Hp.
  assert (Hc : Verifier.calculate_hash (LedgerBuilder.block_to_py b)
               = Ok (LedgerBuilder.hash b)).
  { rewrite Hh. reflexivity. }
  unfold Verifier.verify_block. rewrite Hc.
  cbn [LedgerBuilder.block_to_py Verifier.missing_fields Verifier.required_fields
       flat_map dict_mem dict_get dict_item String.eqb Ascii.eqb Bool.eqb app bind
       Verifier.ne_str].
  rewrite Hp, !String.eqb_refl. cbn [negb app].
  unfold Verifier.required_data_fields in *.
  inversion Hd as [|? ? Hfc Hd1]; subst.
  inversion Hd1 as [|? ? Hpa Hd2]; subst.
  inversion Hd2 as [|? ? Ho2 _]; subst.
  cbn [fold_left].
  rewrite !check_data_field_pass by assumption.
  reflexivity.
Qed.

Lemma scan_good_chain (chain : list LedgerBuilder.Block) :
  forall (expected : string) (i : Z) (v : bool) (c : list Verifier.Corrupted),
    LedgerBuilder.linked expected chain = true ->
    Forall good_block chain ->
    Verifier.scan_from (Verifier.mkScan v expected c) i
                       (map LedgerBuilder.block_to_py chain)
    = Ok (Verifier.mkScan v (LedgerBuilder.tip expected chain) c).
Proof.
  induction chain as [|b chain IH]; intros expected i v c Hl Hg;
    cbn [map Verifier.scan_from].
  - reflexivity.
  - cbn [LedgerBuilder.linked] in Hl. apply andb_true_iff in Hl as [Hp Hl].
    apply String.eqb_eq in Hp. inversion Hg as [|? ? Hb Hg']; subst.
    unfold Verifier.step. cbn [Verifier.expected_prev_hash].
    rewrite (good_block_verifies i b _ Hb eq_refl). cbn [bind].
    cbn [LedgerBuilder.block_to_py dict_item dict_get String.eqb Ascii.eqb Bool.eqb
         bind Verifier.sliceable Verifier.is_valid Verifier.corrupted_blocks].
    rewrite tip_cons. now apply IH.
Qed.

(** The invariant of the builder's state. *)
Lemma receive_keeps_good (st : LedgerBuilder.t * Z) (result : LedgerBuilder.Result) :
  In (LedgerBuilder.r_tipo result) Verifier.required_data_fields ->
  Forall good_block (LedgerBuilder.blockchain (fst st)) ->
  Forall (fun kv => configured_tick (snd kv)) (LedgerBuilder.pending_results (fst st)) ->
  Forall good_block (LedgerBuilder.blockchain (fst (LedgerBuilder.receive st result))) /\
  Forall (fun kv => configured_tick (snd kv))
         (LedgerBuilder.pending_results (fst (LedgerBuilder.receive st result))).
Proof.
  destruct st as [self n]. cbn [fst]. intros Htipo Hchain Hpend.
  unfold LedgerBuilder.receive.
  set (ts := LedgerBuilder.r_timestamp result).
  set (pending1 := if dict_mem ts (LedgerBuilder.pending_results self)
                   then LedgerBuilder.pending_results self
                   else dict_set ts [] (LedgerBuilder.pending_results self)).
  assert (Hp1 : Forall (fun kv => configured_tick (snd kv)) pending1).
  { subst pending1. destruct (dict_mem ts _); [exact Hpend|].
    apply dict_set_Forall; [exact Hpend|]. split; constructor. }
  set (old := LedgerBuilder.get (dict_get ts pending1) []).
  assert (Hold : configured_tick old).
  { subst old. destruct (dict_get ts pending1) eqn:E; cbn [LedgerBuilder.get].
    - exact (dict_get_Forall _ _ _ _ Hp1 E).
    - split; constructor. }
  set (tick := dict_set (LedgerBuilder.r_tipo result) _ old).
  assert (Htick : configured_tick tick).
  { subst tick. destruct Hold as [Hn Hk]. split.
    - now apply dict_set_NoDup.
    - rewrite dict_set_keys. destruct (dict_mem _ old); [exact Hk|].
      apply Forall_app. split; [exact Hk|].
      constructor; [exact Htipo|constructor]. }
  assert (Hp2 : Forall (fun kv => configured_tick (snd kv)) (dict_set ts tick pending1))
    by now apply dict_set_Forall.
  destruct (Z.of_nat (List.length tick) =? 3) eqn:E; cbn [fst LedgerBuilder.blockchain
                                                            LedgerBuilder.pending_results].
  - split; [|now apply dict_del_Forall].
    apply Forall_app. split; [exact Hchain|]. constructor; [|constructor].
    split; [reflexivity|].
    cbn [LedgerBuilder.create_block LedgerBuilder.data LedgerBuilder.datos].
    destruct Htick as [Hn Hk]. rewrite (clean_NoDup _ Hn).
    apply Z.eqb_eq in E.
    assert (H3 : List.length (map fst tick) = 3%nat) by (rewrite length_map; lia).
    pose proof (three_channels _ Hn Hk H3) as Hall.
    assert (Hkeys : map fst (map stats_of tick) = map fst tick).
    { unfold stats_of. rewrite map_map. reflexivity. }
    split; [|split].
    + revert Hall. apply Forall_impl. intros field Hin.
      apply dict_mem_In. now rewrite Hkeys.
    + now rewrite Hkeys.
    + rewrite length_map. lia.
  - split; assumption.
Qed.

Lemma loop_keeps_good (passes : list (list (option LedgerBuilder.Result))) :
  forall st : LedgerBuilder.t * Z,
    Forall (Forall configured_get) passes ->
    Forall good_block (LedgerBuilder.blockchain (fst st)) ->
    Forall (fun kv => configured_tick (snd kv))
           (LedgerBuilder.pending_results (fst st)) ->
    Forall good_block (LedgerBuilder.blockchain (fst (LedgerBuilder.loop passes st))) /\
    Forall (fun kv => configured_tick (snd kv))
           (LedgerBuilder.pending_results (fst (LedgerBuilder.loop passes st))).
Proof.
  induction passes as [|gets passes IH]; intros st Hp Hc Hpend;
    cbn [LedgerBuilder.loop]; [now split|].
  destruct (snd st <? LedgerBuilder.expected_blocks); [|now split].
  inversion Hp as [|? ? Hgets Hp']; subst.
  apply IH; [exact Hp'| |];
    unfold LedgerBuilder.pass;
    clear IH Hp Hp'; revert st Hc Hpend;
    induction Hgets as [|g gets Hg Hgets IHg]; intros st Hc Hpend;
    cbn [fold_left]; try assumption.
  - destruct g as [r|]; [|now apply IHg].
    destruct (receive_keeps_good st r Hg Hc Hpend). now apply IHg.
  - destruct g as [r|]; [|now apply IHg].
    destruct (receive_keeps_good st r Hg Hc Hpend). now apply IHg.
Qed.

(** X6: whatever the order and the timing in which the three
    analyzers' results arrive, the ledger that the builder persists
    passes [verify_blockchain]: the verdict is true and no block is
    recorded as corrupted. *)
Theorem built_ledger_verifies
        (passes : list (list (option LedgerBuilder.Result))) :
  Forall (Forall configured_get) passes ->
  LedgerBuilder.blockchain (LedgerBuilder.run LedgerBuilder.init passes) <> [] ->
  Verifier.verify_blockchain
    (LedgerBuilder.persisted (LedgerBuilder.run LedgerBuilder.init passes))
  = Ok (true, []).
Proof.
  intros Hp Hne.
  assert (Hl : LedgerBuilder.linked ""
                 (LedgerBuilder.blockchain
                    (LedgerBuilder.run LedgerBuilder.init passes)) = true).
  { apply (run_invariant (fun c => LedgerBuilder.linked "" c = true));
      [exact create_block_linked | reflexivity]. }
  destruct (loop_keeps_good passes (LedgerBuilder.init, 0) Hp) as [Hg _];
    [constructor | constructor |].
  fold (LedgerBuilder.run LedgerBuilder.init passes) in Hg.
  unfold Verifier.verify_blockchain, LedgerBuilder.persisted.
  destruct (LedgerBuilder.blockchain (LedgerBuilder.run LedgerBuilder.init passes))
    as [|b chain] eqn:E; [contradiction|].
  rewrite <- E in *. rewrite (scan_good_chain _ "" 0 true [] Hl Hg).
  rewrite E. reflexivity.
Qed.

Lemma built_ledger_verifies_witness :
  Verifier.verify_blockchain
    (LedgerBuilder.persisted (LedgerBuilder.run LedgerBuilder.init three_passes))
  = Ok (true, []).
Proof.
  apply (built_ledger_verifies three_passes).
  - unfold three_passes, tick_results.
    repeat (apply Forall_cons || apply Forall_nil); cbn; auto.
  - rewrite three_blocks_run. discriminate.
Defined.


(** X7: every block that the builder appends holds exactly the three
    configured channels, each of them once. *)
Theorem built_blocks_hold_the_channels
        (passes : list (list (option LedgerBuilder.Result))) :
  Forall (Forall configured_get) passes ->
  Forall (fun b =>
            Permutation (map fst (LedgerBuilder.datos (LedgerBuilder.data b)))
                        Verifier.required_data_fields)
         (LedgerBuilder.blockchain (LedgerBuilder.run LedgerBuilder.init passes)).
Proof.
  intros Hp.
  destruct (loop_keeps_good passes (LedgerBuilder.init, 0) Hp) as [Hg _];
    [constructor | constructor |].
  fold (LedgerBuilder.run LedgerBuilder.init passes) in Hg.
  revert Hg. apply Forall_impl. intros b [_ [Hall [Hn Hlen]]].
  assert (Hreq : NoDup Verifier.required_data_fields).
  { unfold Verifier.required_data_fields.
    repeat constructor; cbn; intuition discriminate. }
  assert (Hincl : incl Verifier.required_data_fields
                       (map fst (LedgerBuilder.datos (LedgerBuilder.data b)))).
  { intros k Hk. apply dict_mem_In. revert k Hk. now apply Forall_forall. }
  apply NoDup_Permutation; [exact Hn|exact Hreq|].
  intros k. split; [|apply Hincl].
  apply (NoDup_length_incl Hreq); [|exact Hincl].
  rewrite length_map, Hlen. cbn. lia.
Qed.

Lemma built_blocks_hold_the_channels_witness :
  Forall (fun b =>
            Permutation (map fst (LedgerBuilder.datos (LedgerBuilder.data b)))
                        Verifier.required_data_fields)
         (LedgerBuilder.blockchain three_blocks).
Proof.
  rewrite <- three_blocks_run.
  apply (built_blocks_hold_the_channels three_passes).
  unfold three_passes, tick_results.
  repeat (apply Forall_cons || apply Forall_nil); cbn; auto.
Defined.

(** ** The pending ticks and the count of blocks *)

Section StateInvariant.
Variable P : LedgerBuilder.t * Z -> Prop.
Hypothesis P_receive :
  forall st result, P st -> P (LedgerBuilder.receive st result).

Lemma pass_state_invariant (gets : list (option LedgerBuilder.Result)) :
  forall st, P st -> P (LedgerBuilder.pass st gets).
Proof.
  unfold LedgerBuilder.pass.
  induction gets as [|g gets IH]; intros st HP; cbn [fold_left]; [exact HP|].
  apply IH. destruct g; [now apply P_receive|exact HP].
Qed.

Lemma loop_state_invariant (passes : list (list (option LedgerBuilder.Result))) :
  forall st, P st -> P (LedgerBuilder.loop passes st).
Proof.
  induction passes as [|gets passes IH]; intros st HP; cbn [LedgerBuilder.loop];
    [exact HP|].
  destruct (snd st <? LedgerBuilder.expected_blocks); [|exact HP].
  apply IH. now apply pass_state_invariant.
Qed.
End StateInvariant.

Lemma dict_del_NoDup {V : Type} (k : string) (d : list (string * V)) :
  NoDup (map fst d) -> NoDup (map fst (dict_del k d)).
Proof.
  induction d as [|[k' v'] d IH]; cbn [dict_del map fst]; intros Hn.
  - constructor.
  - inversion Hn as [|? ? Hnotin Hn']; subst.
    destruct (String.eqb k k'); [exact Hn'|].
    cbn [map fst]. constructor; [|now apply IH].
    intros Hin. apply Hnotin. clear - Hin.
    induction d as [|[k0 v0] d IHd]; cbn [dict_del map fst] in *; [contradiction|].
    destruct (String.eqb k k0); [now right|].
    destruct Hin as [E|Hin]; [now left|right; now apply IHd].
Qed.

Lemma dict_del_absent {V : Type} (k : string) (d : list (string * V)) :
  NoDup (map fst d) -> dict_mem k (dict_del k d) = false.
Proof.
  intros Hn. destruct (dict_mem k (dict_del k d)) eqn:E; [|reflexivity].
  exfalso. apply dict_mem_In in E. revert Hn E.
  induction d as [|[k' v'] d IH]; cbn [dict_del map fst]; intros Hn Hin.
  - contradiction.
  - inversion Hn as [|? ? Hnotin Hn']; subst.
    destruct (String.eqb_spec k k') as [->|Hne]; [contradiction|].
    cbn [map fst In] in Hin.
    destruct Hin as [E|Hin]; [congruence|now apply IH].
Qed.

Lemma dict_set_length {V : Type} (k : string) (v : V) (d : list (string * V)) :
  List.length (dict_set k v d)
  = if dict_mem k d then List.length d else S (List.length d).
Proof.
  rewrite <- (length_map fst), dict_set_keys.
  destruct (dict_mem k d); rewrite ?length_app, length_map; cbn; lia.
Qed.

Lemma dict_set_twice {V : Type} (k : string) (v w : V) (d : list (string * V)) :
  dict_set k v (dict_set k w d) = dict_set k v d.
Proof.
  induction d as [|[k' v'] d IH]; cbn [dict_set].
  - now rewrite String.eqb_refl.
  - destruct (String.eqb k k') eqn:E; cbn [dict_set]; rewrite ?String.eqb_refl, ?E;
      [reflexivity|now rewrite IH].
Qed.

Lemma dict_del_set_Forall {V : Type} (P : string * V -> Prop) (k : string) (v : V)
      (d : list (string * V)) :
  Forall P d -> Forall P (dict_del k (dict_set k v d)).
Proof.
  intros Hd. induction Hd as [|[k' v'] d Hx Hd IH]; cbn [dict_set dict_del].
  - rewrite String.eqb_refl. constructor.
  - destruct (String.eqb k k') eqn:E; cbn [dict_del]; rewrite ?String.eqb_refl, ?E.
    + exact Hd.
    + now constructor.
Qed.

(** [receive] without the empty dictionary that it first stores for
    a new timestamp. *)
Lemma receive_eq (self : LedgerBuilder.t) (n : Z) (result : LedgerBuilder.Result) :
  let ts := LedgerBuilder.r_timestamp result in
  let tick :=
    dict_set (LedgerBuilder.r_tipo result)
             (LedgerBuilder.mkEntry (LedgerBuilder.r_media result)
                                    (LedgerBuilder.r_desv result)
                                    (Some (LedgerBuilder.r_original_data result)))
             (LedgerBuilder.get (dict_get ts (LedgerBuilder.pending_results self)) []) in
  let pending := dict_set ts tick (LedgerBuilder.pending_results self) in
  LedgerBuilder.receive (self, n) result
  = if Z.of_nat (List.length tick) =? 3
    then (LedgerBuilder.mk
            (LedgerBuilder.blockchain self
               ++ [LedgerBuilder.create_block self ts tick])
            (dict_del ts pending),
          n + 1)
    else (LedgerBuilder.mk (LedgerBuilder.blockchain self) pending, n).
Proof.
  intros ts tick pending. unfold LedgerBuilder.receive. fold ts.
  assert (Hold : LedgerBuilder.get
                   (dict_get ts (if dict_mem ts (LedgerBuilder.pending_results self)
                                 then LedgerBuilder.pending_results self
                                 else dict_set ts [] (LedgerBuilder.pending_results self)))
                   []
                 = LedgerBuilder.get (dict_get ts (LedgerBuilder.pending_results self)) []).
  { unfold dict_mem.
    destruct (dict_get ts (LedgerBuilder.pending_results self)) eqn:E.
    - now rewrite E.
    - now rewrite dict_get_set_same. }
  assert (Hpend : forall t : list (string * LedgerBuilder.Entry),
             dict_set ts t (if dict_mem ts (LedgerBuilder.pending_results self)
                            then LedgerBuilder.pending_results self
                            else dict_set ts [] (LedgerBuilder.pending_results self))
             = dict_set ts t (LedgerBuilder.pending_results self)).
  { intros t. destruct (dict_mem ts _); [reflexivity|apply dict_set_twice]. }
  rewrite Hold, Hpend. fold tick. fold pending.
  destruct (Z.of_nat (List.length tick) =? 3); reflexivity.
Qed.

Lemma receive_partial_ticks (st : LedgerBuilder.t * Z) (result : LedgerBuilder.Result) :
  partial_ticks st -> partial_ticks (LedgerBuilder.receive st result).
Proof.
  destruct st as [self n]. unfold partial_ticks. cbn [fst]. intros [Hn Hall].
  rewrite receive_eq. cbv zeta.
  set (ts := LedgerBuilder.r_timestamp result).
  set (old := LedgerBuilder.get (dict_get ts (LedgerBuilder.pending_results self)) []).
  assert (Hold : (List.length old <= 2)%nat).
  { subst old. destruct (dict_get ts _) eqn:E; cbn [LedgerBuilder.get]; [|cbn; lia].
    pose proof (dict_get_Forall _ _ _ _ Hall E) as Hl. cbn [snd] in Hl. lia. }
  set (tick := dict_set (LedgerBuilder.r_tipo result) _ old).
  assert (Htick : (1 <= List.length tick <= 3)%nat).
  { subst tick. rewrite dict_set_length.
    destruct (dict_mem _ old) eqn:E; [|lia].
    apply dict_mem_In in E. destruct old; [contradiction|cbn in *; lia]. }
  destruct (Z.of_nat (List.length tick) =? 3) eqn:E;
    cbn [fst LedgerBuilder.pending_results].
  - split.
    + apply dict_del_NoDup. now apply dict_set_NoDup.
    + now apply dict_del_set_Forall.
  - apply Z.eqb_neq in E. split.
    + now apply dict_set_NoDup.
    + apply dict_set_Forall; [exact Hall|]. cbn [snd]. lia.
Qed.

(** X8: at every moment of the run, each tick under assembly holds one
    or two records, never three and never none, and no two of them
    have the same timestamp: a tick leaves the pending set in the very
    step in which its third record arrives. *)
Theorem pending_ticks_are_partial
        (passes : list (list (option LedgerBuilder.Result))) :
  let pending :=
    LedgerBuilder.pending_results (LedgerBuilder.run LedgerBuilder.init passes) in
  NoDup (map fst pending) /\
  Forall (fun kv => (1 <= List.length (snd kv) <= 2)%nat) pending.
Proof.
  apply (loop_state_invariant partial_ticks receive_partial_ticks passes
                              (LedgerBuilder.init, 0)).
  split; constructor.
Qed.

Lemma receive_count (st : LedgerBuilder.t * Z) (result : LedgerBuilder.Result) :
  snd st = Z.of_nat (List.length (LedgerBuilder.blockchain (fst st))) ->
  snd (LedgerBuilder.receive st result)
  = Z.of_nat (List.length (LedgerBuilder.blockchain
                             (fst (LedgerBuilder.receive st result)))).
Proof.
  destruct st as [self n]. cbn [fst snd]. intros Hn.
  rewrite receive_eq. cbv zeta.
  destruct (Z.of_nat _ =? 3); cbn [fst snd LedgerBuilder.blockchain]; [|exact Hn].
  rewrite length_app. cbn [List.length]. lia.
Qed.

Lemma receive_step (st : LedgerBuilder.t * Z) (result : LedgerBuilder.Result) :
  snd st <= snd (LedgerBuilder.receive st result) <= snd st + 1.
Proof.
  destruct st as [self n]. rewrite receive_eq. cbv zeta.
  destruct (Z.of_nat _ =? 3); cbn [snd]; lia.
Qed.

Lemma pass_step (gets : list (option LedgerBuilder.Result)) :
  forall st : LedgerBuilder.t * Z,
    snd st <= snd (LedgerBuilder.pass st gets)
    <= snd st + Z.of_nat (List.length gets).
Proof.
  unfold LedgerBuilder.pass.
  induction gets as [|g gets IH]; intros st; cbn [fold_left List.length]; [lia|].
  destruct g as [r|].
  - pose proof (receive_step st r). pose proof (IH (LedgerBuilder.receive st r)). lia.
  - pose proof (IH st). lia.
Qed.

Lemma loop_bound (width : Z) (passes : list (list (option LedgerBuilder.Result))) :
  forall st : LedgerBuilder.t * Z,
    Forall (fun gets => Z.of_nat (List.length gets) <= width) passes ->
    snd (LedgerBuilder.loop passes st)
    <= Z.max (snd st) (LedgerBuilder.expected_blocks - 1 + width).
Proof.
  induction passes as [|gets passes IH]; intros st Hw; cbn [LedgerBuilder.loop]; [lia|].
  inversion Hw as [|? ? Hg Hw']; subst.
  destruct (snd st <? LedgerBuilder.expected_blocks) eqn:E; [|lia].
  apply Z.ltb_lt in E.
  pose proof (IH (LedgerBuilder.pass st gets) Hw').
  pose proof (pass_step gets st). lia.
Qed.


(** X9: [run] counts the blocks it appends, and tests the count only
    between two passes over the queues: with three queues the ledger
    never grows beyond 62 blocks, and it can grow beyond the 60 that
    [expected_blocks] names. *)
Theorem block_count_is_bounded
        (passes : list (list (option LedgerBuilder.Result))) :
  Forall (fun gets => (List.length gets <= 3)%nat) passes ->
  (List.length (LedgerBuilder.blockchain (LedgerBuilder.run LedgerBuilder.init passes))
   <= 62)%nat.
Proof.
  intros Hw.
  pose proof (loop_state_invariant
                (fun st => snd st
                           = Z.of_nat (List.length (LedgerBuilder.blockchain (fst st))))
                receive_count passes (LedgerBuilder.init, 0) eq_refl) as Hcount.
  pose proof (loop_bound 3 passes (LedgerBuilder.init, 0)) as Hb.
  unfold LedgerBuilder.run. cbn beta in Hcount.
  assert (Hw' : Forall (fun gets => Z.of_nat (List.length gets) <= 3) passes).
  { revert Hw. apply Forall_impl. intros gets. lia. }
  specialize (Hb Hw'). rewrite Hcount in Hb.
  unfold LedgerBuilder.expected_blocks in Hb. cbn [snd] in Hb. lia.
Qed.

Lemma overshoot_count :
  List.length (LedgerBuilder.blockchain
                 (LedgerBuilder.run LedgerBuilder.init overshoot_passes)) = 62%nat.
Proof. vm_compute. reflexivity. Qed.

Lemma block_count_is_bounded_witness :
  (List.length (LedgerBuilder.blockchain
                  (LedgerBuilder.run LedgerBuilder.init overshoot_passes)) <= 62)%nat
  /\ List.length (LedgerBuilder.blockchain
                    (LedgerBuilder.run LedgerBuilder.init overshoot_passes)) = 62%nat.
Proof.
  split; [|exact overshoot_count].
  apply (block_count_is_bounded overshoot_passes).
  assert (Hw : forallb (fun gets => Nat.leb (List.length gets) 3) overshoot_passes
               = true) by (vm_compute; reflexivity).
  apply Forall_forall. intros gets Hin. apply Nat.leb_le.
  revert gets Hin. now apply forallb_forall.
Defined.

(** ** Results that arrive in step *)

Lemma pass_lockstep (self : LedgerBuilder.t) (n : Z)
      (gets : list (option LedgerBuilder.Result)) :
  LedgerBuilder.pending_results self = [] ->
  lockstep gets ->
  exists b,
    LedgerBuilder.pass (self, n) gets
    = (LedgerBuilder.mk (LedgerBuilder.blockchain self ++ [b]) [], n + 1) /\
    LedgerBuilder.timestamp (LedgerBuilder.data b) = pass_timestamp gets /\
    map fst (LedgerBuilder.datos (LedgerBuilder.data b)) = pass_channels gets.
Proof.
  intros Hpend [r1 [r2 [r3 [-> [Ht2 [Ht3 Hn]]]]]].
  inversion Hn as [|? ? Hn1 Hn']; subst. inversion Hn' as [|? ? Hn2 _]; subst.
  assert (E21 : String.eqb (LedgerBuilder.r_tipo r2) (LedgerBuilder.r_tipo r1) = false).
  { apply String.eqb_neq. intros E. apply Hn1. left. now symmetry. }
  assert (E31 : String.eqb (LedgerBuilder.r_tipo r3) (LedgerBuilder.r_tipo r1) = false).
  { apply String.eqb_neq. intros E. apply Hn1. right. left. now symmetry. }
  assert (E32 : String.eqb (LedgerBuilder.r_tipo r3) (LedgerBuilder.r_tipo r2) = false).
  { apply String.eqb_neq. intros E. apply Hn2. left. now symmetry. }
  unfold LedgerBuilder.pass. cbn [fold_left].
  do 3 (rewrite receive_eq; cbv zeta; rewrite ?Hpend, ?Ht2, ?Ht3;
        repeat (progress
                  (cbn -[LedgerBuilder.receive LedgerBuilder.create_block String.eqb];
                   rewrite ?String.eqb_refl, ?E21, ?E31, ?E32))).
  eexists. split; [reflexivity|]. split; [reflexivity|].
  cbn [LedgerBuilder.create_block LedgerBuilder.data LedgerBuilder.datos].
  rewrite clean_NoDup.
  - reflexivity.
  - cbn [map fst]. exact Hn.
Qed.

Lemma loop_lockstep (passes : list (list (option LedgerBuilder.Result))) :
  forall (self : LedgerBuilder.t) (n : Z),
    LedgerBuilder.pending_results self = [] ->
    n + Z.of_nat (List.length passes) <= LedgerBuilder.expected_blocks ->
    Forall lockstep passes ->
    exists added,
      LedgerBuilder.loop passes (self, n)
      = (LedgerBuilder.mk (LedgerBuilder.blockchain self ++ added) [],
         n + Z.of_nat (List.length passes)) /\
      map (fun b => LedgerBuilder.timestamp (LedgerBuilder.data b)) added
      = map pass_timestamp passes /\
      map (fun b => map fst (LedgerBuilder.datos (LedgerBuilder.data b))) added
      = map pass_channels passes.
Proof.
  induction passes as [|gets passes IH]; intros self n Hpend Hn Hall;
    cbn [LedgerBuilder.loop List.length].
  - exists []. rewrite app_nil_r, Z.add_0_r. destruct self. cbn in *. subst.
    repeat split.
  - inversion Hall as [|? ? Hg Hall']; subst. cbn [snd List.length] in *.
    destruct (n <? LedgerBuilder.expected_blocks) eqn:E; [|apply Z.ltb_ge in E; lia].
    destruct (pass_lockstep self n gets Hpend Hg) as [b [Hpass [Hts Hch]]].
    rewrite Hpass.
    destruct (IH (LedgerBuilder.mk (LedgerBuilder.blockchain self ++ [b]) [])
                 (n + 1) eq_refl) as [added [Hloop [Hts' Hch']]];
      [lia|exact Hall'|].
    exists (b :: added). rewrite Hloop. cbn [LedgerBuilder.blockchain map].
    rewrite <- app_assoc, Hts, Hch, Hts', Hch'. cbn [app].
    repeat split. f_equal. lia.
Qed.

(** X10: when the three queues deliver, pass after pass, the three
    records of one tick, each pass appends one block and leaves no tick
    pending: up to 60 passes give as many blocks, with the ticks'
    timestamps in their order and, in each block, the channels in the
    order of the queues. *)
Theorem lockstep_run_appends_one_block_per_tick
        (passes : list (list (option LedgerBuilder.Result))) :
  Forall lockstep passes ->
  (List.length passes <= 60)%nat ->
  let st := LedgerBuilder.run LedgerBuilder.init passes in
  LedgerBuilder.pending_results st = [] /\
  List.length (LedgerBuilder.blockchain st) = List.length passes /\
  map (fun b => LedgerBuilder.timestamp (LedgerBuilder.data b))
      (LedgerBuilder.blockchain st)
  = map pass_timestamp passes /\
  map (fun b => map fst (LedgerBuilder.datos (LedgerBuilder.data b)))
      (LedgerBuilder.blockchain st)
  = map pass_channels passes.
Proof.
  intros Hall Hlen.
  destruct (loop_lockstep passes LedgerBuilder.init 0 eq_refl) as [added [Hloop [Hts Hch]]];
    [unfold LedgerBuilder.expected_blocks; lia|exact Hall|].
  unfold LedgerBuilder.run. rewrite Hloop.
  cbn [fst LedgerBuilder.pending_results LedgerBuilder.blockchain LedgerBuilder.init app].
  split; [reflexivity|]. split; [|split; assumption].
  rewrite <- (length_map (fun b => LedgerBuilder.timestamp (LedgerBuilder.data b))), Hts.
  apply length_map.
Qed.

Lemma lockstep_run_appends_one_block_per_tick_witness :
  LedgerBuilder.pending_results (LedgerBuilder.run LedgerBuilder.init three_passes) = []
  /\ map (fun b => LedgerBuilder.timestamp (LedgerBuilder.data b))
         (LedgerBuilder.blockchain (LedgerBuilder.run LedgerBuilder.init three_passes))
     = ["2025-01-01T00:00:00"; "2025-01-01T00:00:01"; "2025-01-01T00:00:02"].
Proof.
  destruct (lockstep_run_appends_one_block_per_tick three_passes)
    as [Hp [_ [Ht _]]].
  - unfold three_passes, tick_results.
    repeat (apply Forall_cons || apply Forall_nil);
      (eexists _, _, _; split; [reflexivity|]; split; [reflexivity|];
       split; [reflexivity|]; repeat constructor; cbn; intuition discriminate).
  - cbn. lia.
  - split; [exact Hp|exact Ht].
Defined.

(** ** The alert flag at the edges *)

(** X11: the readings that [generate_sample] can produce never raise
    the alert flag of their block, whatever the records' statistics. *)
Theorem generated_reading_raises_no_alert
        (self : LedgerBuilder.t) (timestamp : string)
        (results : list (string * LedgerBuilder.Entry)) (s : Sample) :
  generated s ->
  results <> [] ->
  Forall (fun kv => LedgerBuilder.e_original (snd kv) = Some (Some s)) results ->
  LedgerBuilder.alerta
    (LedgerBuilder.data (LedgerBuilder.create_block self timestamp results)) = false.
Proof.
  intros [now [fc [sys [dia [o2 [-> [Hfc [Hsys [_ Ho2]]]]]]]]] Hne Hall.
  destruct results as [|[k e] results]; [contradiction|].
  apply Forall_inv in Hall. cbn [snd] in Hall.
  cbn [LedgerBuilder.create_block LedgerBuilder.data LedgerBuilder.alerta].
  unfold LedgerBuilder.is_valid_data.
  cbn [LedgerBuilder.find_original]. rewrite Hall.
  cbn [sample_is_empty s_timestamp s_frecuencia s_presion s_oxigeno LedgerBuilder.get].
  destruct (200 <=? fc) eqn:E1; [apply Z.leb_le in E1; lia|].
  destruct (90 <=? o2) eqn:E2; [|apply Z.leb_gt in E2; lia].
  destruct (o2 <=? 100) eqn:E3; [|apply Z.leb_gt in E3; lia].
  destruct (200 <=? sys) eqn:E4; [apply Z.leb_le in E4; lia|].
  reflexivity.
Qed.

Lemma generated_reading_raises_no_alert_witness :
  LedgerBuilder.alerta
    (LedgerBuilder.data
       (LedgerBuilder.create_block LedgerBuilder.init "2025-01-01T00:00:00"
                                   results_fc_first)) = false.
Proof.
  apply (generated_reading_raises_no_alert
           LedgerBuilder.init "2025-01-01T00:00:00" results_fc_first sample_t0).
  - exists "2025-01-01T00:00:00", 100, 120, 80, 98.
    split; [reflexivity|]. lia.
  - discriminate.
  - repeat constructor.
Defined.

(** X12: the alert flag fails safe.  A tick whose records embed no
    original reading (the key is absent from every record, or the
    first record that has it holds [None] or an empty dictionary), or
    whose reading has no [oxigeno], gets a block with the alert set. *)
Theorem missing_original_data_is_flagged
        (self : LedgerBuilder.t) (timestamp : string)
        (results : list (string * LedgerBuilder.Entry)) :
  (LedgerBuilder.find_original results = None \/
   exists s, LedgerBuilder.find_original results = Some s /\
             (sample_is_empty s = true \/ s_oxigeno s = None)) ->
  LedgerBuilder.alerta
    (LedgerBuilder.data (LedgerBuilder.create_block self timestamp results)) = true.
Proof.
  cbn [LedgerBuilder.create_block LedgerBuilder.data LedgerBuilder.alerta].
  unfold LedgerBuilder.is_valid_data.
  intros [-> | [s [-> [He | Ho]]]]; [reflexivity| now rewrite He |].
  destruct (sample_is_empty s); [reflexivity|].
  rewrite Ho. cbn [LedgerBuilder.get Z.leb Z.compare andb negb].
  now destruct (200 <=? _).
Qed.

Lemma missing_original_data_is_flagged_witness :
  LedgerBuilder.alerta
    (LedgerBuilder.data
       (LedgerBuilder.create_block
          LedgerBuilder.init "2025-01-01T00:00:00"
          [ ("frecuencia",
             LedgerBuilder.mkEntry (PFloat "100.0") (PFloat "0.0") None);
            ("presion",
             LedgerBuilder.mkEntry (PFloat "120.0") (PFloat "0.0") (Some None));
            ("oxigeno",
             LedgerBuilder.mkEntry (PFloat "98.0") (PFloat "0.0")
                                   (Some (Some sample_t0))) ])) = true.
Proof.
  apply missing_original_data_is_flagged. left. reflexivity.
Defined.

(* ================================================================== *)
(** * Further properties of the analyzer *)

Section WindowEdges.
Context {F : Type} `{FloatOps F}.
Variable strptime : string -> option Z.

Import BiometricAnalyzer.

Lemma evict_split (duration now : Z) (w : list (Z * F)) :
  exists dropped,
    w = dropped ++ evict duration now w /\
    Forall (fun x => duration < now - fst x) dropped /\
    match evict duration now w with
    | x :: _ => now - fst x <= duration
    | [] => True
    end.
Proof.
  induction w as [|[t v] w IH]; cbn [evict].
  - exists []. repeat split. constructor.
  - destruct (duration <? now - t) eqn:E.
    + destruct IH as [dropped [Hw [Hd Hh]]].
      exists ((t, v) :: dropped). cbn [app]. split; [now rewrite <- Hw|].
      split; [|exact Hh]. constructor; [|exact Hd].
      cbn [fst]. now apply Z.ltb_lt.
    + exists []. cbn [app]. repeat split; [constructor|].
      cbn [fst]. now apply Z.ltb_ge.
Qed.

Lemma evict_keeps_newest (duration now : Z) (v : F) (w : list (Z * F)) :
  0 <= duration ->
  exists rest, evict duration now (w ++ [(now, v)]) = rest ++ [(now, v)].
Proof.
  intros Hd. induction w as [|[t x] w IH]; cbn [app evict].
  - replace (now - now) with 0 by lia.
    destruct (duration <? 0) eqn:E; [apply Z.ltb_lt in E; lia|].
    now exists [].
  - destruct (duration <? now - t); [exact IH|].
    now exists ((t, x) :: w).
Qed.

Lemma update_window_raises (a : t) (s : Sample) (e : exn) :
  entry_of strptime a s = Raise e -> update_window strptime a s = Raise e.
Proof.
  unfold entry_of, update_window.
  destruct (key "timestamp" (s_timestamp s)) as [ts|]; cbn [bind];
    [|intros E; now inversion E].
  destruct (strptime ts) as [timestamp|]; [|intros E; now inversion E].
  destruct (extract_signal_value a s) as [value|]; cbn [bind];
    [discriminate|intros E; now inversion E].
Qed.

(** X13: whatever the order of the timestamps, [update_window] drops
    only a run of entries at the front, each of them older than the
    window, and stops at the first entry that is not: the new window
    is what remains of the old entries followed by the new one, which
    is always kept, and its first entry is at most 30 seconds old.
    Entries that are too old but stand behind a younger one stay. *)
Theorem update_window_drops_a_stale_front
        (a a' : t) (s : Sample) :
  0 <= window_duration a ->
  update_window strptime a s = Ok a' ->
  exists e dropped rest,
    entry_of strptime a s = Ok e /\
    window_data a ++ [e] = dropped ++ window_data a' /\
    Forall (fun x => window_duration a < fst e - fst x) dropped /\
    window_data a' = rest ++ [e] /\
    (forall x w, window_data a' = x :: w -> fst e - fst x <= window_duration a) /\
    signal_type a' = signal_type a /\
    window_duration a' = window_duration a.
Proof.
  intros Hd Hu.
  destruct (entry_of strptime a s) as [e|x] eqn:He;
    [|rewrite (update_window_raises _ _ _ He) in Hu; discriminate].
  rewrite (update_window_entry strptime _ _ _ He) in Hu. inversion Hu; subst a'.
  cbn [window_data signal_type window_duration].
  destruct (evict_split (window_duration a) (fst e) (window_data a ++ [e]))
    as [dropped [Hw [Hdrop Hhead]]].
  destruct e as [now v]. cbn [fst] in *.
  destruct (evict_keeps_newest (window_duration a) now v (window_data a) Hd)
    as [rest Hrest].
  exists (now, v), dropped, rest. cbn [fst].
  repeat split; try assumption.
  intros x w Hx. rewrite Hx in Hhead. exact Hhead.
Qed.
End WindowEdges.

(** The entry of second 0 is at the front and goes; the entry of
    second 2, as old, stands behind the one of second 40 and stays. *)
Lemma update_window_drops_a_stale_front_witness :
  exists a',
    BiometricAnalyzer.update_window example_strptime shuffled_window sample_t31
    = Ok a' /\
    BiometricAnalyzer.window_data a'
    = [(40, 100%float); (2, 100%float); (31, 130%float)].
Proof.
  destruct (BiometricAnalyzer.update_window example_strptime shuffled_window sample_t31)
    as [a'|] eqn:E; [|vm_compute in E; discriminate].
  destruct (update_window_drops_a_stale_front
              example_strptime shuffled_window a' sample_t31)
    as [e [dropped [rest _]]].
  - cbn. lia.
  - exact E.
  - exists a'. split; [reflexivity|].
    vm_compute in E. inversion E. reflexivity.
Defined.

Section WindowSize.
Context {F : Type} `{FloatOps F}.
Variable strptime : string -> option Z.

Import BiometricAnalyzer.

Lemma strictly_sorted_length (lo hi : Z) (l : list (Z * F)) :
  StronglySorted strictly_by_time l ->
  Forall (fun e => lo <= fst e <= hi) l ->
  Z.of_nat (List.length l) <= Z.max 0 (hi - lo + 1).
Proof.
  intros Hs. revert lo.
  induction Hs as [|x l Hs IH Hall]; intros lo Hr; cbn [List.length]; [lia|].
  inversion Hr as [|? ? Hx Hr']; subst.
  assert (Hr1 : Forall (fun e => fst x + 1 <= fst e <= hi) l).
  { apply Forall_forall. intros e He.
    pose proof (proj1 (Forall_forall _ _) Hall e He) as Hlt.
    pose proof (proj1 (Forall_forall _ _) Hr' e He) as Hb.
    unfold strictly_by_time in Hlt. cbn beta in Hb. lia. }
  specialize (IH _ Hr1). cbn beta in Hx. lia.
Qed.

Lemma filter_strictly_sorted (f : Z * F -> bool) (l : list (Z * F)) :
  StronglySorted strictly_by_time l ->
  StronglySorted strictly_by_time (filter f l).
Proof.
  intros Hs. induction Hs as [|x l Hs IH Hall]; cbn [filter]; [constructor|].
  destruct (f x); [|exact IH].
  constructor; [exact IH|].
  apply Forall_forall. intros y Hy. apply filter_In in Hy as [Hy _].
  revert y Hy. now apply Forall_forall.
Qed.

Lemma sorted_below_last (l : list (Z * F)) :
  StronglySorted by_time l ->
  forall d, Forall (fun e => fst e <= last (map fst l) d) l.
Proof.
  intros Hs. induction Hs as [|x l Hs IH Hall]; intros d; [constructor|].
  cbn [map]. rewrite last_cons.
  assert (Hx : fst x <= last (map fst l) (fst x)).
  { destruct l as [|y l]; [cbn; lia|].
    pose proof (IH (fst x)) as Hy. inversion Hy as [|? ? Hy0 _]; subst.
    inversion Hall as [|? ? Hxy _]; subst. unfold by_time in Hxy. lia. }
  constructor; [exact Hx|apply IH].
Qed.

Lemma strictly_is_by_time (l : list (Z * F)) :
  StronglySorted strictly_by_time l -> StronglySorted by_time l.
Proof.
  intros Hs. induction Hs as [|x l Hs IH Hall]; constructor; [exact IH|].
  revert Hall. apply Forall_impl. unfold strictly_by_time, by_time. lia.
Qed.

(** X14: when no two readings have the same second and they come in
    the order of their timestamps, the window never holds more than
    31 entries: the statistics of a reading are taken over the
    readings of the last 31 seconds, its own included. *)
Theorem window_holds_at_most_31_entries
        (signal : string) (samples : list Sample) (entries : list (Z * F)) :
  map (entry_of strptime (init signal)) samples = map Ok entries ->
  Sorted strictly_by_time entries ->
  exists a,
    feed strptime (init signal) samples = Ok a /\
    (List.length (window_data a) <= 31)%nat.
Proof.
  intros Hm Hs.
  apply Sorted_StronglySorted in Hs;
    [|intros x y z; unfold strictly_by_time; lia].
  pose proof (strictly_is_by_time _ Hs) as Hle.
  destruct entries as [|e es].
  - destruct samples; [|discriminate]. eexists. split; [reflexivity|]. cbn. lia.
  - destruct (feed_window strptime samples (e :: es) [] (init signal) (fst e))
      as [a [Hf [_ [_ Hw]]]].
    + exact Hm.
    + reflexivity.
    + reflexivity.
    + inversion Hle as [|? ? _ Hall]; subst.
      constructor; [cbn beta; lia|exact Hall].
    + exact Hle.
    + exists a. split; [exact Hf|]. cbn [app] in Hw. rewrite Hw.
      set (now := last (map fst (e :: es)) (fst e)).
      assert (Hb : Forall (fun x => now - 30 <= fst x <= now)
                          (filter (recent 30 now) (e :: es))).
      { apply Forall_forall. intros x Hx. apply filter_In in Hx as [Hin Hr].
        unfold recent in Hr. apply Z.leb_le in Hr.
        pose proof (proj1 (Forall_forall _ _) (sorted_below_last _ Hle (fst e)) x Hin)
          as Hlast.
        cbn beta in Hlast. fold now in Hlast. lia. }
      pose proof (strictly_sorted_length
                    _ _ _ (filter_strictly_sorted (recent 30 now) _ Hs) Hb).
      lia.
Qed.
End WindowSize.

Lemma second_samples_entries :
  map (BiometricAnalyzer.entry_of second_strptime analyzer0) second_samples
  = map Ok (map (fun i => (Z.of_nat i, 100%float)) (seq 0 40)).
Proof. vm_compute. reflexivity. Qed.

Lemma window_holds_at_most_31_entries_witness :
  exists a,
    BiometricAnalyzer.feed second_strptime analyzer0 second_samples = Ok a /\
    (List.length (BiometricAnalyzer.window_data a) <= 31)%nat /\
    List.length (BiometricAnalyzer.window_data a) = 31%nat.
Proof.
  destruct (window_holds_at_most_31_entries
              second_strptime "frecuencia" second_samples
              (map (fun i => (Z.of_nat i, 100%float)) (seq 0 40)))
    as [a [Hf Hl]].
  - exact second_samples_entries.
  - cbn [seq map]. repeat constructor.
  - exists a. split; [exact Hf|]. split; [exact Hl|].
    assert (E : BiometricAnalyzer.feed second_strptime analyzer0 second_samples
                = BiometricAnalyzer.feed second_strptime analyzer0 second_samples)
      by reflexivity.
    rewrite Hf in E at 1. vm_compute in E. inversion E. reflexivity.
Defined.

(* ================================================================== *)
(** * Further properties of the generator *)

Section Broadcast.
Variable Sink : Type.
Variable send : Sink -> Sample -> option Sink.
Variable close : Sink -> Sink.
Variable generate_sample : nat -> Sample.

(** Sinks whose consumer is there, and what a send leaves of them. *)
Variable connected : Sink -> Prop.
Variable deliver : Sink -> Sample -> Sink.
Hypothesis send_connected :
  forall p s, connected p -> send p s = Some (deliver p s) /\ connected (deliver p s).

Import BiometricGenerator.

Lemma send_all_connected (sample : Sample) (pipes : list Sink) :
  Forall connected pipes ->
  send_all Sink send sample pipes = (map (fun p => deliver p sample) pipes, true) /\
  Forall connected (map (fun p => deliver p sample) pipes).
Proof.
  intros Hc. induction Hc as [|p pipes Hp Hc [IH1 IH2]]; cbn [send_all map].
  - split; [reflexivity|constructor].
  - destruct (send_connected p sample Hp) as [Hs Hd].
    rewrite Hs, IH1. split; [reflexivity|now constructor].
Qed.

Lemma emit_connected (range : list nat) :
  forall pipes,
    Forall connected pipes ->
    emit Sink send generate_sample range pipes
    = (map (fun p => fold_left deliver (map generate_sample range) p) pipes, true).
Proof.
  induction range as [|i range IH]; intros pipes Hc; cbn [emit map fold_left].
  - now rewrite map_id.
  - destruct (send_all_connected (generate_sample i) pipes Hc) as [Hs Hd].
    rewrite Hs, (IH _ Hd), map_map. reflexivity.
Qed.

(** X15: when the consumer of every sink is there, [run] sends each
    of the readings to every sink, in the order in which they are
    generated, logs no error and closes every sink. *)
Theorem broadcast_reaches_every_sink (sample_count : nat) (pipes : list Sink) :
  Forall connected pipes ->
  run Sink send close generate_sample sample_count pipes
  = (map (fun p =>
            close (fold_left deliver (map generate_sample (seq 0 sample_count)) p))
         pipes,
     false).
Proof.
  intros Hc. unfold run. rewrite (emit_connected _ _ Hc), map_map. reflexivity.
Qed.
End Broadcast.

Lemma broadcast_reaches_every_sink_witness :
  map received
      (fst (BiometricGenerator.run Pipe pipe_send pipe_close example_sample
                                   BiometricGenerator.sample_count
                                   [open_pipe; open_pipe; open_pipe]))
  = repeat (map example_sample (seq 0 60)) 3.
Proof.
  rewrite (broadcast_reaches_every_sink
             Pipe pipe_send pipe_close example_sample
             (fun p => consumer_alive p = true /\ closed p = false)
             (fun p s => mkPipe (consumer_alive p) (received p ++ [s]) (closed p))).
  - vm_compute. reflexivity.
  - intros p s [Ha Hc]. unfold pipe_send. rewrite Ha, Hc. cbn. auto.
  - repeat constructor.
Defined.

(* ================================================================== *)
(** * Properties of [BiometricAnalyzer.run] *)

Section AnalyzerRunFacts.
Context {F : Type} `{FloatOps F}.
Variable strptime : string -> option Z.
Variable round2 : F -> F.

Import BiometricAnalyzer.

Lemma feed_raise (samples : list Sample) (e : exn) :
  fold_left (fun a s => a' <- a ;; update_window strptime a' s) samples (Raise e)
  = Raise e.
Proof. induction samples as [|s samples IH]; [reflexivity|exact IH]. Qed.

Lemma feed_cons (a : t) (s : Sample) (samples : list Sample) :
  feed strptime a (s :: samples)
  = (a' <- update_window strptime a s ;; feed strptime a' samples).
Proof.
  unfold feed. cbn [fold_left bind].
  destruct (update_window strptime a s); cbn [bind]; [reflexivity|apply feed_raise].
Qed.

Lemma update_window_signal (a a' : t) (s : Sample) :
  update_window strptime a s = Ok a' -> signal_type a' = signal_type a.
Proof.
  unfold update_window.
  destruct (key "timestamp" (s_timestamp s)); cbn [bind]; [|discriminate].
  destruct (strptime a0); [|discriminate].
  destruct (extract_signal_value a s); cbn [bind]; [|discriminate].
  intros E. now inversion E.
Qed.

Local Ltac no_result :=
  exists []; cbn [snd List.length map firstn]; rewrite app_nil_r;
  split; [reflexivity|]; split; [lia|]; split; [reflexivity|];
  split; [constructor|]; split; [intros [|?] ? E; discriminate|].

Lemma run_from_spec (pipe : list Sample) :
  forall (self : t) (n : nat) (queue : list (AnalyzerProcess.Emitted (F := F))),
  exists new,
    snd (AnalyzerProcess.run_from strptime round2 self pipe n queue) = queue ++ new /\
    (List.length new <= 60 - n)%nat /\
    map AnalyzerProcess.original_data new = firstn (List.length new) pipe /\
    Forall (fun r => AnalyzerProcess.tipo r = signal_type self /\
                     s_timestamp (AnalyzerProcess.original_data r)
                     = Some (AnalyzerProcess.timestamp r)) new /\
    (forall k r,
        nth_error new k = Some r ->
        exists a,
          feed strptime self (firstn (S k) pipe) = Ok a /\
          AnalyzerProcess.media r = round2 (fst (calculate_statistics a)) /\
          AnalyzerProcess.desv r = round2 (snd (calculate_statistics a))) /\
    (forall entries,
        map (entry_of strptime self) pipe = map Ok entries ->
        List.length new = Nat.min (60 - n) (List.length pipe)).
Proof.
  induction pipe as [|s pipe IH]; intros self n queue; cbn [AnalyzerProcess.run_from].
  - no_result. intros _ _. lia.
  - destruct (n <? 60)%nat eqn:En.
    + apply Nat.ltb_lt in En.
      destruct (update_window strptime self s) as [self'|x] eqn:Hu.
      * destruct (calculate_statistics self') as [mean std_dev] eqn:Hc.
        destruct (s_timestamp s) as [ts|] eqn:Hts.
        -- destruct (IH self' (S n)
                        (queue ++ [AnalyzerProcess.mkEmitted
                                     (signal_type self') ts (round2 mean)
                                     (round2 std_dev) s]))
             as [new [Hq [Hlen [Horig [Hall [Hnth Hok]]]]]].
           pose proof (update_window_signal _ _ _ Hu) as Hsig.
           exists (AnalyzerProcess.mkEmitted (signal_type self') ts (round2 mean)
                                             (round2 std_dev) s :: new).
           rewrite Hq, <- app_assoc. cbn [app List.length map firstn].
           split; [reflexivity|]. split; [lia|].
           split; [now rewrite Horig|]. split; [|split].
           ++ constructor.
              ** cbn. now split.
              ** revert Hall. apply Forall_impl. intros r [Ht Ho].
                 split; [congruence|exact Ho].
           ++ intros [|k] r E; cbn [nth_error] in E.
              ** inversion E; subst r. exists self'. cbn [firstn].
                 rewrite feed_cons, Hu. cbn [bind AnalyzerProcess.media
                                                  AnalyzerProcess.desv].
                 now rewrite Hc.
              ** destruct (Hnth k r E) as [a [Hf Hm]].
                 exists a. split; [|exact Hm].
                 change (firstn (S (S k)) (s :: pipe)) with (s :: firstn (S k) pipe).
                 now rewrite feed_cons, Hu.
           ++ intros [|e entries] Hm; [discriminate|].
              cbn [map] in Hm. injection Hm as _ Hm.
              rewrite (Hok entries).
              ** lia.
              ** rewrite <- Hm. apply map_ext. intros x.
                 now apply entry_of_signal.
        -- no_result.
           intros [|e entries] Hm; [discriminate|]. cbn [map] in Hm.
           injection Hm as He _. unfold entry_of in He. rewrite Hts in He.
           discriminate.
      * no_result.
        intros [|e entries] Hm; [discriminate|]. cbn [map] in Hm.
        injection Hm as He _.
        rewrite (update_window_entry strptime _ _ _ He) in Hu. discriminate.
    + apply Nat.ltb_ge in En.
      no_result.
      intros _ _. cbn [List.length]. lia.
Qed.

(** X16: [run] puts one result on the queue for each reading that it
    takes from the pipe, in their order and at most 60 of them; each
    result carries the reading itself, the reading's timestamp, the
    analyzer's signal type, and the rounded statistics of the window
    as it is after that reading.  When every reading can be read, the
    results are as many as the readings, or 60. *)
Theorem analyzer_run_emits_one_result_per_reading (self : t) (pipe : list Sample) :
  let out := snd (AnalyzerProcess.run strptime round2 self pipe) in
  (List.length out <= 60)%nat /\
  map AnalyzerProcess.original_data out = firstn (List.length out) pipe /\
  Forall (fun r => AnalyzerProcess.tipo r = signal_type self /\
                   s_timestamp (AnalyzerProcess.original_data r)
                   = Some (AnalyzerProcess.timestamp r)) out /\
  (forall k r,
      nth_error out k = Some r ->
      exists a,
        feed strptime self (firstn (S k) pipe) = Ok a /\
        AnalyzerProcess.media r = round2 (fst (calculate_statistics a)) /\
        AnalyzerProcess.desv r = round2 (snd (calculate_statistics a))) /\
  (forall entries,
      map (entry_of strptime self) pipe = map Ok entries ->
      List.length out = Nat.min 60 (List.length pipe)).
Proof.
  unfold AnalyzerProcess.run.
  destruct (run_from_spec pipe self 0 []) as [new [Hq [Hlen [Horig [Hall [Hnth Hok]]]]]].
  cbn [app] in Hq. cbv zeta. rewrite Hq.
  split; [lia|]. split; [exact Horig|]. split; [exact Hall|].
  split; [exact Hnth|exact Hok].
Qed.
End AnalyzerRunFacts.

Lemma analyzer_run_emits_one_result_per_reading_witness :
  List.length (snd (AnalyzerProcess.run second_strptime (fun x => x)
                                        analyzer0 second_samples))
  = 40%nat.
Proof.
  destruct (analyzer_run_emits_one_result_per_reading
              second_strptime (fun x => x) analyzer0 second_samples)
    as [_ [_ [_ [_ Hok]]]].
  rewrite (Hok _ second_samples_entries). reflexivity.
Defined.

(** An analyzer for a signal type that [extract_signal_value] does not
    know raises on its first reading, before it changes the window. *)
Lemma unknown_signal_raises
      {F : Type} `{FloatOps F} (strptime : string -> option Z)
      (a : BiometricAnalyzer.t) (s : Sample) :
  ~ In (BiometricAnalyzer.signal_type a) Verifier.required_data_fields ->
  exists e, BiometricAnalyzer.update_window strptime a s = Raise e.
Proof.
  intros Hn. unfold BiometricAnalyzer.update_window.
  destruct (key "timestamp" (s_timestamp s)) as [ts|x]; cbn [bind]; [|now exists x].
  destruct (strptime ts); [|now exists ValueError].
  unfold BiometricAnalyzer.extract_signal_value.
  destruct (String.eqb_spec (BiometricAnalyzer.signal_type a) "frecuencia") as [E|_].
  { exfalso. apply Hn. rewrite E. cbn. auto. }
  destruct (String.eqb_spec (BiometricAnalyzer.signal_type a) "presion") as [E|_].
  { exfalso. apply Hn. rewrite E. cbn. auto. }
  destruct (String.eqb_spec (BiometricAnalyzer.signal_type a) "oxigeno") as [E|_].
  { exfalso. apply Hn. rewrite E. cbn. auto. }
  cbn [bind]. now exists ValueError.
Qed.

(** X17: an analyzer created for a signal type other than
    [frecuencia], [presion] and [oxigeno] puts nothing on its queue,
    whatever the pipe delivers, and leaves its window as it was. *)
Theorem unknown_signal_emits_nothing
        {F : Type} `{FloatOps F} (strptime : string -> option Z) (round2 : F -> F)
        (self : BiometricAnalyzer.t) (pipe : list Sample) :
  ~ In (BiometricAnalyzer.signal_type self) Verifier.required_data_fields ->
  AnalyzerProcess.run strptime round2 self pipe = (self, []).
Proof.
  intros Hn. unfold AnalyzerProcess.run.
  destruct pipe as [|s pipe]; cbn [AnalyzerProcess.run_from Nat.ltb Nat.leb].
  - reflexivity.
  - destruct (unknown_signal_raises strptime self s Hn) as [e He].
    now rewrite He.
Qed.

Lemma unknown_signal_emits_nothing_witness :
  AnalyzerProcess.run second_strptime (fun x : float => x)
                      (BiometricAnalyzer.init "temperatura") second_samples
  = (BiometricAnalyzer.init "temperatura", []).
Proof.
  apply unknown_signal_emits_nothing.
  cbn. intuition discriminate.
Defined.
